(** * fflogs-study-project: the [Scraping] class of [data/data_scraping.py]

    A shallow embedding of the scraper's control flow and of the string
    computations it performs, together with the properties of the
    specification that concern them.

    The browser, the site and the operating system are outside the program:
    they are an interface ([Browser]) whose answers the program cannot
    predict, and every call the program issues to them is recorded in a
    journal, so that statements such as "the driver is quit once" or "no
    page is opened" are statements about that journal. *)

From Stdlib Require Import Ascii.
From stdpp Require Import base list strings sorting gmap.
From Equations Require Import Equations.

#[local] Arguments String.append !_ _ / : simpl nomatch.

(** ** Python's string built-ins, as far as the scraper uses them *)

Module Py.

(** [s[n:]]: the string without its first [n] characters. *)
Fixpoint skip (n : nat) (s : string) : string :=
  match n, s with
  | S n', String _ s' => skip n' s'
  | _, _ => s
  end.

Lemma skip_length n s : String.length (skip n s) ≤ String.length s.
Proof.
  revert s; induction n as [|n IH]; intros [|c s]; simpl; try lia.
  specialize (IH s). lia.
Qed.

(** [sub in s]. *)
Fixpoint contains (sub s : string) : bool :=
  String.prefix sub s ||
  match s with
  | EmptyString => false
  | String _ s' => contains sub s'
  end.

(** [s.replace(old, new)] for a non-empty [old]: the occurrences of [old]
    are found from left to right, each search resuming behind the
    previous occurrence. *)
Equations? replace_ne (old new s : string) : string by wf (String.length s) lt :=
  replace_ne old new EmptyString := EmptyString;
  replace_ne old new (String c s') with String.prefix old (String c s') => {
    | true := new +:+ replace_ne old new (skip (String.length old - 1) s');
    | false := String c (replace_ne old new s') }.
Proof.
  pose proof (skip_length (String.length old - 1) s'). simpl. lia.
Qed.

(** With an empty [old], Python puts [new] in front of every character
    and at the end. *)
Fixpoint between (new s : string) : string :=
  match s with
  | EmptyString => new
  | String c s' => new +:+ String c (between new s')
  end.

Definition replace (old new s : string) : string :=
  match old with
  | EmptyString => between new s
  | String _ _ => replace_ne old new s
  end.

(** [c in chars]. *)
Fixpoint mem (c : ascii) (chars : string) : bool :=
  match chars with
  | EmptyString => false
  | String d chars' => Ascii.eqb c d || mem c chars'
  end.

Fixpoint lstrip (chars s : string) : string :=
  match s with
  | EmptyString => EmptyString
  | String c s' => if mem c chars then lstrip chars s' else s
  end.

Fixpoint rstrip (chars s : string) : string :=
  match s with
  | EmptyString => EmptyString
  | String c s' =>
      match rstrip chars s' with
      | EmptyString => if mem c chars then EmptyString else String c EmptyString
      | r => String c r
      end
  end.

(** [s.strip(chars)]. *)
Definition strip (chars s : string) : string := rstrip chars (lstrip chars s).

(** [sorted(l)] on a sequence of strings: a stable merge sort by the order
    of [str], which is lexicographic on the character codes. *)
Definition sorted (l : list string) : list string := merge_sort String.le l.

(** *** The pattern ["[a-zA-Z]*"] of [check_comp] *)

Definition quote : ascii := ascii_of_nat 34.

Definition is_alpha (c : ascii) : bool :=
  (Ascii.leb "a" c && Ascii.leb c "z") || (Ascii.leb "A" c && Ascii.leb c "Z").

(** The longest run of letters at the head of [s], and what follows it. *)
Fixpoint letters (s : string) : string * string :=
  match s with
  | String c s' =>
      if is_alpha c then let '(run, rest) := letters s' in (String c run, rest)
      else (EmptyString, s)
  | EmptyString => (EmptyString, EmptyString)
  end.

(** A match of the pattern at the head of [s]: the matched text and the
    rest of [s].  The run of letters is taken whole: a shorter run is
    followed by a letter, never by the closing quote. *)
Definition match_here (s : string) : option (string * string) :=
  match s with
  | String q s1 =>
      if Ascii.eqb q quote then
        match letters s1 with
        | (run, String q' rest) =>
            if Ascii.eqb q' quote
            then Some (String quote (run +:+ String quote EmptyString), rest)
            else None
        | (_, EmptyString) => None
        end
      else None
  | EmptyString => None
  end.

Lemma letters_length s run rest :
  letters s = (run, rest) → String.length rest ≤ String.length s.
Proof.
  revert run rest; induction s as [|c s IH]; intros run rest; simpl.
  - intros [= <- <-]. simpl. lia.
  - destruct (is_alpha c).
    + destruct (letters s) as [run' rest'] eqn:E. intros [= <- <-].
      specialize (IH _ _ eq_refl). lia.
    + intros [= <- <-]. simpl. lia.
Qed.

Lemma match_here_length s m rest :
  match_here s = Some (m, rest) → String.length rest < String.length s.
Proof.
  destruct s as [|q s1]; simpl; [done|].
  destruct (Ascii.eqb q quote); [|done].
  destruct (letters s1) as [run [|q' rest']] eqn:E; [done|].
  destruct (Ascii.eqb q' quote); [|done].
  intros [= <- <-]. apply letters_length in E. simpl in E. lia.
Qed.

(** [re.findall("\"[a-zA-Z]*\"", s)]: the matches that do not overlap,
    from left to right; where no match starts, the scan moves on by one
    character. *)
Equations? findall_quoted (s : string) : list string by wf (String.length s) lt :=
  findall_quoted EmptyString := [];
  findall_quoted (String c s') with Logic.inspect (match_here (String c s')) => {
    | exist _ (Some (m, rest)) E := m :: findall_quoted rest;
    | exist _ None _ := findall_quoted s' }.
Proof.
  exact (match_here_length (String c s') m rest E).
Qed.

End Py.

(** ** The world outside the program *)

(** Selenium's [By]: how an element is located. *)
Inductive By := XPATH | CLASS_NAME.

(** The exceptions that reach the scraper. *)
Inductive exn :=
| TimeoutException                (* [WebDriverWait.until] gave up *)
| WebDriverException              (* any other failure of the driver *)
| OSError                         (* [os.unlink] refused, or a file is missing *)
| AttributeError (msg : string).

(** The three progress lines of [parse_logs]. *)
Inductive msg :=
| Beginning (counter max : nat)   (* "Beginning log {counter}/{max}... " *)
| LeftOut                         (* "...will be left out, group comp is invalid." *)
| Finished (counter max : nat).   (* "...log {counter}/{max} finished." *)

(** The calls the program issues to the outside. *)
Inductive call :=
| Unlink (filename : string)                      (* [os.unlink] in the csv directory *)
| Firefox (headless : bool)                       (* [webdriver.Firefox(...)] *)
| InstallAddon (xpi : string)                     (* [driver.install_addon] *)
| AddExtension (xpi : string)                     (* [ffprofile.add_extension] *)
| Get (url : string)                              (* [driver.get] *)
| WaitUntil (how : By) (value : string) (timeout : nat)
| SendEnter (how : By) (value : string)            (* [element.send_keys(Keys.ENTER)] *)
| Sleep (ms : nat)                                (* [time.sleep] *)
| Print (m : msg)
| CurrentUrl                                      (* [driver.current_url] *)
| PageSource                                      (* [driver.page_source] *)
| Quit.                                           (* [driver.quit] *)

#[global] Instance By_eq_dec : EqDecision By.
Proof. solve_decision. Defined.
#[global] Instance exn_eq_dec : EqDecision exn.
Proof. solve_decision. Defined.
#[global] Instance msg_eq_dec : EqDecision msg.
Proof. solve_decision. Defined.
#[global] Instance call_eq_dec : EqDecision call.
Proof. solve_decision. Defined.

(** What the browser and the site answer.  [W] is the state of the browser
    session together with everything behind it; an operation that can fail
    answers with an exception or with the next state. *)
Class Browser (W : Type) := {
  launch : bool → exn + W;
  drv_install_addon : string → W → exn + W;
  (** [FirefoxProfile.add_extension]: the xpi file is unpacked into the
      directory of the profile, which fails when the file is not there;
      the session that runs is not touched *)
  profile_add_extension : string → exn + unit;
  drv_get : string → W → exn + W;
  drv_current_url : W → exn + string;
  drv_page_source : W → exn + string;
  (** [WebDriverWait(driver, timeout, ignored_exceptions).until(
      EC.presence_of_element_located((by, value)))] *)
  drv_wait : By → string → nat → W → exn + W;
  drv_send_keys : By → string → W → exn + W;
  drv_quit : W → exn + W;
  (** the time that [time.sleep] lets pass *)
  elapse : nat → W → W;
}.

(** ** Computations that call out, may raise and change a state

    A computation answers with an exception or a value, the state it
    leaves, and the calls it issued, oldest first.  The state survives an
    exception, as the attributes of a Python object do. *)

Definition M (Σ A : Type) : Type := Σ → (exn + A) * Σ * list call.

Definition ret {Σ A} (a : A) : M Σ A := λ σ, (inr a, σ, []).

Definition bind {Σ A B} (m : M Σ A) (f : A → M Σ B) : M Σ B :=
  λ σ, match m σ with
       | (inr a, σ1, j1) => let '(r, σ2, j2) := f a σ1 in (r, σ2, j1 ++ j2)
       | (inl e, σ1, j1) => (inl e, σ1, j1)
       end.

Definition raise {Σ A} (e : exn) : M Σ A := λ σ, (inl e, σ, []).
Definition gets {Σ A} (f : Σ → A) : M Σ A := λ σ, (inr (f σ), σ, []).
Definition modify {Σ} (f : Σ → Σ) : M Σ unit := λ σ, (inr (), f σ, []).
Definition issue {Σ} (c : call) : M Σ unit := λ σ, (inr (), σ, [c]).

Declare Scope run_scope.
Delimit Scope run_scope with run.
Notation "x <- m ;; k" := (bind m (λ x, k))
  (at level 100, m at next level, right associativity) : run_scope.
Notation "m ;; k" := (bind m (λ _, k))
  (at level 100, right associativity) : run_scope.
Open Scope run_scope.

(** [for x in l: f(x)], stopping at the first exception. *)
Fixpoint for_each {Σ A} (f : A → M Σ unit) (l : list A) : M Σ unit :=
  match l with
  | [] => ret ()
  | x :: l' => f x ;; for_each f l'
  end.

Definition outcome {Σ A} (r : (exn + A) * Σ * list call) : exn + A := r.1.1.
Definition final {Σ A} (r : (exn + A) * Σ * list call) : Σ := r.1.2.
Definition journal {Σ A} (r : (exn + A) * Σ * list call) : list call := r.2.

(** How often the driver is quit, how many pages are opened, and how many
    exports are triggered. *)
Definition quits (j : list call) : nat := length (filter (λ c, c = Quit) j).
Definition is_get (c : call) : bool := match c with Get _ => true | _ => false end.
Definition navigations (j : list call) : nat := length (filter (λ c, is_get c = true) j).
Definition is_export (c : call) : bool := match c with SendEnter _ _ => true | _ => false end.
Definition exports (j : list call) : nat := length (filter (λ c, is_export c = true) j).

(** Every call a computation issues satisfies [P], whatever the state. *)
Definition only {Σ A} (P : call → Prop) (m : M Σ A) : Prop :=
  ∀ σ, Forall P (journal (m σ)).

(** A computation that prints no progress line. *)
Definition silent {Σ A} (m : M Σ A) : Prop := only (λ c, ∀ x, c ≠ Print x) m.

(** What a turn of the loop of [parse_logs] may call. *)
Definition in_loop (c : call) : Prop :=
  match c with
  | Get _ | WaitUntil _ _ _ | SendEnter _ _ | Sleep _ | Print _
  | CurrentUrl | PageSource => True
  | _ => False
  end.

Definition is_unlink (c : call) : Prop :=
  match c with Unlink _ => True | _ => False end.

(** The progress lines among the calls. *)
Definition printed (j : list call) : list msg :=
  omap (λ c, match c with Print m => Some m | _ => None end) j.

(** ** The host: the csv download directory

    [csv] holds the names in [data/csv]; [held] the names that [os.unlink]
    refuses (a sub-directory, a file another process keeps open). *)
Record Host := { csv : gset string; held : gset string }.

(** ** [class Scraping], the implementation that skips a log on mismatch *)

Module Scraping.
Section methods.
Context {W : Type} `{Browser W}.

(** [str(BeautifulSoup(page, "html.parser").find_all(class_=...))]: the
    markup parser is not part of the program. *)
Variable find_all_str : string → string → string.

Record obj := Obj {
  logs : list string;
  comp : list string;
  enc_type : string;
  driver : W;
}.

Definition set_comp (c : list string) (self : obj) : obj :=
  {| logs := logs self; comp := c; enc_type := enc_type self; driver := driver self |}.
Definition set_driver (w : W) (self : obj) : obj :=
  {| logs := logs self; comp := comp self; enc_type := enc_type self; driver := w |}.

(** A driver operation that may raise. *)
Definition on_driver (op : W → exn + W) : M obj unit :=
  λ self, match op (driver self) with
          | inr w => (inr (), set_driver w self, [])
          | inl e => (inl e, self, [])
          end.

(** A question to the driver that may raise. *)
Definition ask_driver {A} (q : W → exn + A) : M obj A :=
  λ self, match q (driver self) with
          | inr a => (inr a, self, [])
          | inl e => (inl e, self, [])
          end.

Definition os_unlink (filename : string) : M Host unit :=
  issue (Unlink filename) ;;
  h <- gets id ;;
  if decide (filename ∈ held h) then raise OSError
  else modify (λ h, {| csv := csv h ∖ {[filename]}; held := held h |}).

Definition ublock : string := "ublock_origin-1.43.0.xpi".

(** [os.listdir] answers with the names in [csv].  The options and the
    profile with its four download preferences are values the constructor
    builds in memory and hands to [webdriver.Firefox]; the profile is met
    again in the last line, where the ad blocker is added to it. *)
Definition __init__ (logs : list string) (type : string) (headless cookies : bool)
  : M Host obj :=
  (* Before scraping new data, we first need to clear out old csv files. *)
  names <- gets (λ h, elements (csv h)) ;;
  for_each os_unlink names ;;
  (* Start Firefox driver with options (headless or not) and profile. *)
  issue (Firefox headless) ;;
  match launch headless with
  | inl e => raise e
  | inr w =>
      (* We install our adblocker (ublock origin) from an xpi file and
         activate it by adding it to our FirefoxProfile. *)
      issue (InstallAddon ublock) ;;
      match drv_install_addon ublock w with
      | inl e => raise e
      | inr w' =>
          issue (AddExtension ublock) ;;
          match profile_add_extension ublock with
          | inl e => raise e
          | inr _ => ret {| logs := logs; comp := []; enc_type := type; driver := w' |}
          end
      end
  end.

Definition quit : M obj unit :=
  issue Quit ;; on_driver drv_quit.

Definition current_url : M obj string :=
  issue CurrentUrl ;; ask_driver drv_current_url.

Definition page_source : M obj string :=
  issue PageSource ;; ask_driver drv_page_source.

Definition sleep (ms : nat) : M obj unit :=
  issue (Sleep ms) ;; modify (λ self, set_driver (elapse ms (driver self)) self).

Definition driver_get (url : string) : M obj unit :=
  issue (Get url) ;; on_driver (drv_get url).

Definition wait_until (value : string) (timeout : nat) (how : By) : M obj unit :=
  issue (WaitUntil how value timeout) ;; on_driver (drv_wait how value timeout).

Definition send_enter (how : By) (value : string) : M obj unit :=
  issue (SendEnter how value) ;; on_driver (drv_send_keys how value).

(** The address [to_summary] opens. *)
Definition summary_url (enc_type log_url : string) : string :=
  let url := log_url +:+ "#boss=-2" in
  if String.eqb enc_type "wipes" then url +:+ "&wipes=1"
  else if String.eqb enc_type "kills" then url +:+ "&wipes=2"
  else url.

Definition to_summary (log_url : string) : M obj unit :=
  enc <- gets enc_type ;;
  driver_get (summary_url enc log_url).

Definition get_comp : M obj string :=
  wait_until "//table[@class='composition-table']" 10 XPATH ;;
  page <- page_source ;;
  ret (find_all_str "composition-entry" page).

(** The tokens [check_comp] reads off the markup. *)
Definition tokens (comp_html : string) : list string :=
  map (Py.strip (String Py.quote EmptyString)) (Py.findall_quoted comp_html).

Definition check_comp (comp_html : string) : M obj bool :=
  let comp' := tokens comp_html in
  old <- gets comp ;;
  if bool_decide (0 < length old) && bool_decide (Py.sorted old ≠ Py.sorted comp')
  then ret false
  else modify (set_comp comp') ;; ret true.

Definition damage_url (sum_url : string) : string := sum_url +:+ "&type=damage-done".
Definition healing_url (dd_url : string) : string :=
  Py.replace "&type=damage-done" "&type=healing" dd_url.

Definition to_damage_dealt : M obj unit :=
  sum_url <- current_url ;;
  driver_get (damage_url sum_url).

Definition get_damage_dealt : M obj unit :=
  wait_until "buttons-csv" 10 CLASS_NAME ;; send_enter CLASS_NAME "buttons-csv".

Definition to_healing_done : M obj unit :=
  dd_url <- current_url ;;
  driver_get (healing_url dd_url).

Definition get_healing_done : M obj unit :=
  sleep 500 ;;
  wait_until "buttons-csv" 10 CLASS_NAME ;; send_enter CLASS_NAME "buttons-csv".

(** The [for] loop of [parse_logs], with its local [counter]. *)
Fixpoint loop (max counter : nat) (ls : list string) : M obj unit :=
  match ls with
  | [] => ret ()
  | log :: rest =>
      issue (Print (Beginning counter max)) ;;
      to_summary log ;;
      comp_html <- get_comp ;;
      ok <- check_comp comp_html ;;
      if negb ok then
        issue (Print LeftOut) ;;
        loop max counter rest
      else
        to_damage_dealt ;;
        get_damage_dealt ;;
        to_healing_done ;;
        get_healing_done ;;
        issue (Print (Finished counter max)) ;;
        loop max (counter + 1) rest
  end.

Definition parse_logs : M obj unit :=
  ls <- gets logs ;;
  loop (length ls) 1 ls ;;
  (* We wait a split second at the end to make sure downloads are finished *)
  sleep 500 ;;
  quit.

End methods.
Arguments obj : clear implicits.
End Scraping.

(** ** [class Scraping], the earlier implementation

    The file under [src/fflogs-study-project/data]: it checks the encounter
    type when the object is built and raises on a composition mismatch.
    Only the two methods in which it differs on a point of the
    specification are needed here. *)

Module Earlier.
Section methods.
Context {W : Type} `{Browser W}.

(** [pd.DataFrame()] *)
Inductive DataFrame := EmptyFrame.

Record obj := Obj {
  logs : list string;
  comp : list string;
  dd_dfs : list DataFrame;
  hd_dfs : list DataFrame;
  enc_type : nat;
  driver : W;
}.

Definition set_comp (c : list string) (self : obj) : obj :=
  {| logs := logs self; comp := c; dd_dfs := dd_dfs self; hd_dfs := hd_dfs self;
     enc_type := enc_type self; driver := driver self |}.
Definition set_driver (w : W) (self : obj) : obj :=
  {| logs := logs self; comp := comp self; dd_dfs := dd_dfs self; hd_dfs := hd_dfs self;
     enc_type := enc_type self; driver := w |}.

Definition __init__ (logs : list string) (encounters_type : string) (headless : bool)
  : M Host obj :=
  enc <- (if String.eqb encounters_type "wipes" then ret 0
          else if String.eqb encounters_type "kills" then ret 1
          else if String.eqb encounters_type "all" then ret 2
          else raise (AttributeError "Select a valid encounter type.")) ;;
  issue (Firefox headless) ;;
  match launch headless with
  | inl e => raise e
  | inr w => ret {| logs := logs; comp := []; dd_dfs := []; hd_dfs := [];
                    enc_type := enc; driver := w |}
  end.

Definition quit : M obj unit :=
  issue Quit ;;
  λ self, match drv_quit (driver self) with
          | inr w => (inr (), set_driver w self, [])
          | inl e => (inl e, self, [])
          end.

Definition check_comp (comp_html : string) : M obj unit :=
  let comp' := map (Py.strip (String Py.quote EmptyString)) (Py.findall_quoted comp_html) in
  old <- gets comp ;;
  if bool_decide (0 < length old) && bool_decide (Py.sorted old ≠ Py.sorted comp')
  then quit ;; raise (AttributeError "Group comps in provided logs don't match.")
  else modify (set_comp comp').

End methods.
Arguments obj : clear implicits.
End Earlier.

(** ** The batch of the earlier implementation

    The remaining methods of the earlier file need two things the
    interface above does not have: elements are located with
    [find_element] and clicked, and an index into a sequence can be out of
    range.  They are added here, around what is already there: a call is
    one of the calls above or one of the two new ones, an exception is one
    of the driver's or [IndexError].  The [logging.info] lines of the file
    are left out. *)

Module EarlierBatch.

Inductive exn2 :=
| Raised (e : exn)
| IndexError.

Inductive call2 :=
| Did (c : call)
| FindElement (how : By) (value : string)     (* [driver.find_element] *)
| Click (how : By) (value : string).          (* [element.click()] *)

Class Pointer (W : Type) := {
  drv_find_element : By → string → W → exn + W;
  drv_click : By → string → W → exn + W;
}.

Definition M2 (Σ A : Type) : Type := Σ → (exn2 + A) * Σ * list call2.

Definition ret2 {Σ A} (a : A) : M2 Σ A := λ σ, (inr a, σ, []).

Definition bind2 {Σ A B} (m : M2 Σ A) (f : A → M2 Σ B) : M2 Σ B :=
  λ σ, match m σ with
       | (inr a, σ1, j1) => let '(r, σ2, j2) := f a σ1 in (r, σ2, j1 ++ j2)
       | (inl e, σ1, j1) => (inl e, σ1, j1)
       end.

(** A computation of the part above, among these. *)
Definition lift {Σ A} (m : M Σ A) : M2 Σ A :=
  λ σ, let '(o, σ', j) := m σ in
       (match o with inl e => inl (Raised e) | inr a => inr a end, σ', Did <$> j).

Declare Scope batch_scope.
Delimit Scope batch_scope with batch.
Notation "x <- m ;; k" := (bind2 m (λ x, k))
  (at level 100, m at next level, right associativity) : batch_scope.
Notation "m ;; k" := (bind2 m (λ _, k))
  (at level 100, right associativity) : batch_scope.
#[local] Open Scope batch_scope.

Fixpoint for_each2 {Σ A} (f : A → M2 Σ unit) (l : list A) : M2 Σ unit :=
  match l with
  | [] => ret2 ()
  | x :: l' => f x ;; for_each2 f l'
  end.

#[global] Instance exn2_eq_dec : EqDecision exn2.
Proof. solve_decision. Defined.
#[global] Instance call2_eq_dec : EqDecision call2.
Proof. solve_decision. Defined.

Definition quits2 (j : list call2) : nat := length (filter (λ c, c = Did Quit) j).

Section methods.
Context {W : Type} `{Browser W} `{Pointer W}.
Variable find_all_str : string → string → string.

Definition set_dd_dfs (l : list Earlier.DataFrame) (self : Earlier.obj W) : Earlier.obj W :=
  {| Earlier.logs := Earlier.logs self; Earlier.comp := Earlier.comp self;
     Earlier.dd_dfs := l; Earlier.hd_dfs := Earlier.hd_dfs self;
     Earlier.enc_type := Earlier.enc_type self; Earlier.driver := Earlier.driver self |}.
Definition set_hd_dfs (l : list Earlier.DataFrame) (self : Earlier.obj W) : Earlier.obj W :=
  {| Earlier.logs := Earlier.logs self; Earlier.comp := Earlier.comp self;
     Earlier.dd_dfs := Earlier.dd_dfs self; Earlier.hd_dfs := l;
     Earlier.enc_type := Earlier.enc_type self; Earlier.driver := Earlier.driver self |}.

(** A call to the driver that changes the session and may raise. *)
Definition drive (c : call2) (op : W → exn + W) : M2 (Earlier.obj W) unit :=
  λ self, match op (Earlier.driver self) with
          | inr w => (inr (), Earlier.set_driver w self, [c])
          | inl e => (inl (Raised e), self, [c])
          end.

(** A question to the driver. *)
Definition ask {A} (c : call2) (q : W → exn + A) : M2 (Earlier.obj W) A :=
  λ self, match q (Earlier.driver self) with
          | inr a => (inr a, self, [c])
          | inl e => (inl (Raised e), self, [c])
          end.

Definition sleep (ms : nat) : M2 (Earlier.obj W) unit :=
  λ self, (inr (), Earlier.set_driver (elapse ms (Earlier.driver self)) self,
           [Did (Sleep ms)]).

Definition attr {A} (f : Earlier.obj W → A) : M2 (Earlier.obj W) A :=
  λ self, (inr (f self), self, []).

(** [l[i]] for an index [i] that is not negative. *)
Definition item {A} (l : list A) (i : nat) : M2 (Earlier.obj W) A :=
  λ self, match l !! i with
          | Some x => (inr x, self, [])
          | None => (inl IndexError, self, [])
          end.

Definition popup_xp : string := "/html/body/div[2]/div/div/div/div[2]/div/button[1]".

Definition first_popup : M2 (Earlier.obj W) unit :=
  drive (Did (Get "https://www.fflogs.com/")) (drv_get "https://www.fflogs.com/") ;;
  sleep 500 ;;
  drive (FindElement XPATH popup_xp) (drv_find_element XPATH popup_xp) ;;
  drive (Did (SendEnter XPATH popup_xp)) (drv_send_keys XPATH popup_xp).

Definition fights_xp : list string :=
  ["/html/body/div[3]/div[2]/div[5]/div/div/div/div[2]/div/a[1]";
   "/html/body/div[3]/div[2]/div[5]/div/div/div/div[2]/div/a[2]";
   "/html/body/div[3]/div[2]/div[5]/div/div/div/div[2]/div/a[3]"].

Definition to_summary (log_num : nat) : M2 (Earlier.obj W) unit :=
  logs <- attr Earlier.logs ;;
  url <- item logs log_num ;;
  drive (Did (Get url)) (drv_get url) ;;
  sleep 500 ;;
  enc_type <- attr Earlier.enc_type ;;
  xp <- item fights_xp enc_type ;;
  drive (FindElement XPATH xp) (drv_find_element XPATH xp) ;;
  drive (Click XPATH xp) (drv_click XPATH xp) ;;
  (* Some of the contents I want to parse take a few seconds to load. *)
  sleep 2000.

Definition get_comp : M2 (Earlier.obj W) string :=
  page <- ask (Did PageSource) drv_page_source ;;
  ret2 (find_all_str "composition-entry" page).

Definition check_comp (comp_html : string) : M2 (Earlier.obj W) unit :=
  lift (Earlier.check_comp comp_html).

Definition to_damage_dealt : M2 (Earlier.obj W) unit :=
  sum_url <- ask (Did CurrentUrl) drv_current_url ;;
  let dd_url := sum_url +:+ "&type=damage-done" in
  drive (Did (Get dd_url)) (drv_get dd_url).

(** The frame that is stored is the empty one it starts with: the table
    found in the page is not put into it. *)
Definition get_damage_dealt : M2 (Earlier.obj W) unit :=
  let dd_df := Earlier.EmptyFrame in
  _ <- ask (Did PageSource) drv_page_source ;;
  λ self, (inr (), set_dd_dfs (Earlier.dd_dfs self ++ [dd_df]) self, []).

Definition to_healing_done : M2 (Earlier.obj W) unit :=
  dd_url <- ask (Did CurrentUrl) drv_current_url ;;
  let hd_url := Py.replace "&type=damage-done" "&type=healing" dd_url in
  drive (Did (Get hd_url)) (drv_get hd_url).

Definition get_healing_done : M2 (Earlier.obj W) unit :=
  let hd_df := Earlier.EmptyFrame in
  _ <- ask (Did PageSource) drv_page_source ;;
  λ self, (inr (), set_hd_dfs (Earlier.hd_dfs self ++ [hd_df]) self, []).

(** One turn of the loop of [parse_logs]. *)
Definition turn (log : nat) : M2 (Earlier.obj W) unit :=
  to_summary log ;;
  comp_html <- get_comp ;;
  check_comp comp_html ;;
  to_damage_dealt ;;
  get_damage_dealt ;;
  to_healing_done ;;
  get_healing_done.

Definition parse_logs : M2 (Earlier.obj W) unit :=
  first_popup ;;
  logs <- attr Earlier.logs ;;
  for_each2 turn (seq 0 (length logs)) ;;
  lift Earlier.quit.

End methods.

(** The state and the calls so far satisfy [P]; then [m] returns in [Q] or
    raises in [E]. *)
Definition triple {Σ A} (P : Σ → list call2 → Prop) (m : M2 Σ A)
    (Q : A → Σ → list call2 → Prop) (E : exn2 → Σ → list call2 → Prop) : Prop :=
  ∀ σ j0, P σ j0 →
    match m σ with
    | (inr a, σ', j) => Q a σ' (j0 ++ j)
    | (inl e, σ', j) => E e σ' (j0 ++ j)
    end.

(** What holds between two turns of a batch on an object built with the
    logs [L]: the logs are [L], the encounter type is an index of
    [fights_xp], [d] damage and [h] healing frames are stored, and the
    driver has not been quit. *)
Definition between_turns {W} (L : list string) (d h : nat)
    (self : Earlier.obj W) (j : list call2) : Prop :=
  Earlier.logs self = L ∧ Earlier.enc_type self < 3
  ∧ length (Earlier.dd_dfs self) = d ∧ length (Earlier.hd_dfs self) = h
  ∧ quits2 j = 0.

(** What holds when a batch raises: the exception is not [IndexError] and
    the driver has been quit at most once. *)
Definition on_raise {W} (e : exn2) (self : Earlier.obj W) (j : list call2) : Prop :=
  e ≠ IndexError ∧ quits2 j ≤ 1.

End EarlierBatch.

(** ** The encounter filter of the specification

    The program has no such type: [enc_type] is the string the user gave,
    one of "all", "kills" and "wipes" by the class's documentation. *)
Inductive EncounterFilter := ALL | KILLS_ONLY | WIPES_ONLY.

Definition filter_arg (f : EncounterFilter) : string :=
  match f with ALL => "all" | KILLS_ONLY => "kills" | WIPES_ONLY => "wipes" end.

(** ** The progress lines of one run of [parse_logs]

    [progress max c l]: [l] is what the loop prints from a point where its
    counter is [c].  A log is announced and then left out or finished; an
    exception leaves the last announcement open. *)
Inductive progress (max : nat) : nat → list msg → Prop :=
| progress_end c : progress max c []
| progress_aborted c : progress max c [Beginning c max]
| progress_skip c l :
    progress max c l → progress max c (Beginning c max :: LeftOut :: l)
| progress_done c l :
    progress max (c + 1) l → progress max c (Beginning c max :: Finished c max :: l).

(** How many logs a sequence of progress lines announces, leaves out and
    finishes. *)
Fixpoint begun (l : list msg) : nat :=
  match l with
  | [] => 0
  | Beginning _ _ :: l' => S (begun l')
  | _ :: l' => begun l'
  end.
Fixpoint skipped (l : list msg) : nat :=
  match l with
  | [] => 0
  | LeftOut :: l' => S (skipped l')
  | _ :: l' => skipped l'
  end.
Fixpoint finished (l : list msg) : nat :=
  match l with
  | [] => 0
  | Finished _ _ :: l' => S (finished l')
  | _ :: l' => finished l'
  end.

(** A computation keeps [I] when it leaves a state in [I] in [I], however
    it ends. *)
Definition keeps {Σ A} (I : Σ → Prop) (m : M Σ A) : Prop :=
  ∀ σ, I σ → I (final (m σ)).

(** A computation raises within [P] when every exception it ends in
    satisfies [P]. *)
Definition throws {Σ A} (P : exn → Prop) (m : M Σ A) : Prop :=
  ∀ σ e, outcome (m σ) = inl e → P e.

(** The calls [j] in front of the calls of a result. *)
Definition prepend {Σ A} (j : list call) (r : (exn + A) * Σ * list call)
  : (exn + A) * Σ * list call :=
  let '(o, σ, j') := r in (o, σ, j ++ j').

(** The calls of a turn of the loop that leaves its log out, and of a turn
    that finishes it: [url] is the summary address, [sum_url] and [dd_url]
    what the browser shows before the damage and the healing tab are
    opened. *)
Definition turn_left_out (counter max : nat) (url : string) : list call :=
  [Print (Beginning counter max); Get url;
   WaitUntil XPATH "//table[@class='composition-table']" 10; PageSource;
   Print LeftOut].

Definition turn_finished (counter max : nat) (url sum_url dd_url : string) : list call :=
  [Print (Beginning counter max); Get url;
   WaitUntil XPATH "//table[@class='composition-table']" 10; PageSource;
   CurrentUrl; Get (Scraping.damage_url sum_url);
   WaitUntil CLASS_NAME "buttons-csv" 10; SendEnter CLASS_NAME "buttons-csv";
   CurrentUrl; Get (Scraping.healing_url dd_url);
   Sleep 500;
   WaitUntil CLASS_NAME "buttons-csv" 10; SendEnter CLASS_NAME "buttons-csv";
   Print (Finished counter max)].

(** Every exception the driver raises, in any of the operations that
    [parse_logs] uses, satisfies [P]. *)
Definition driver_raises {W} `{Browser W} (P : exn → Prop) : Prop :=
  (∀ url w e, drv_get url w = inl e → P e)
  ∧ (∀ w e, drv_current_url w = inl e → P e)
  ∧ (∀ w e, drv_page_source w = inl e → P e)
  ∧ (∀ how value timeout w e, drv_wait how value timeout w = inl e → P e)
  ∧ (∀ how value w e, drv_send_keys how value w = inl e → P e)
  ∧ (∀ w e, drv_quit w = inl e → P e).

(** A property of the object that does not look at the driver. *)
Definition driver_blind {W} (I : Scraping.obj W → Prop) : Prop :=
  ∀ w self, I self → I (Scraping.set_driver w self).

(** The account of a run of the loop over [n] logs, by its progress lines:
    each log is announced at most once; a log that is finished has cost
    three navigations and two exports, a log that is left out one
    navigation; a run that raised has one announcement left open. *)
Definition tally {Σ} (n : nat) (r : (exn + ()) * Σ * list call) : Prop :=
  let p := printed (journal r) in
  begun p ≤ n
  ∧ exports (journal r) ≤ 2 * finished p + 2
  ∧ navigations (journal r) ≤ begun p + 2 * finished p + 2
  ∧ match outcome r with
    | inr _ => begun p = n ∧ finished p + skipped p = n
               ∧ exports (journal r) = 2 * finished p
               ∧ navigations (journal r) = n + 2 * finished p
    | inl _ => finished p + skipped p + 1 = begun p
    end.

(** A text of ASCII letters only. *)
Fixpoint all_alpha (s : string) : bool :=
  match s with
  | EmptyString => true
  | String c s' => Py.is_alpha c && all_alpha s'
  end.

(** ** A site to run the scraper on

    The state of this browser is the address it shows.  A page is the
    composition markup of its log: the logs whose address begins with [b]
    have a Warrior where the others have a Scholar.  An address that
    begins with [x] never shows the element that is waited for. *)

Definition quoted (s : string) : string :=
  String Py.quote (s +:+ String Py.quote EmptyString).

Definition demo_page (url : string) : string :=
  if String.prefix "b" url
  then "<a class=" +:+ quoted "Paladin" +:+ "/><a class=" +:+ quoted "Warrior" +:+ "/>"
  else "<a class=" +:+ quoted "Scholar" +:+ "/><a class=" +:+ quoted "Paladin" +:+ "/>".

#[local] Instance demo_site : Browser string := {|
  launch _ := inr "about:blank";
  drv_install_addon _ w := inr w;
  profile_add_extension _ := inr ();
  drv_get url _ := inr url;
  drv_current_url w := inr w;
  drv_page_source w := inr (demo_page w);
  drv_wait _ _ _ w := if String.prefix "x" w then inl TimeoutException else inr w;
  drv_send_keys _ _ w := inr w;
  drv_quit w := inr w;
  elapse _ w := w;
|}.

Definition demo_find_all (class_ page : string) : string := page.

(** On this site every element that is looked for is found. *)
#[local] Instance demo_pointer : EarlierBatch.Pointer string := {|
  EarlierBatch.drv_find_element _ _ w := inr w;
  EarlierBatch.drv_click _ _ w := inr w;
|}.

(** A site whose pages load and show no element to point at, driven from
    a directory in which the xpi file of the ad blocker is missing. *)
#[local] Instance bare_site : Browser unit := {|
  launch _ := inr ();
  drv_install_addon _ w := inr w;
  profile_add_extension _ := inl OSError;
  drv_get _ w := inr w;
  drv_current_url _ := inr EmptyString;
  drv_page_source _ := inr EmptyString;
  drv_wait _ _ _ w := inr w;
  drv_send_keys _ _ w := inr w;
  drv_quit w := inr w;
  elapse _ w := w;
|}.

#[local] Instance bare_pointer : EarlierBatch.Pointer unit := {|
  EarlierBatch.drv_find_element _ _ _ := inl WebDriverException;
  EarlierBatch.drv_click _ _ w := inr w;
|}.

Definition demo_obj (logs comp : list string) (enc_type : string) : Scraping.obj string :=
  Scraping.Obj logs comp enc_type "about:blank".

Definition demo_earlier (logs comp : list string) (driver : string) : Earlier.obj string :=
  Earlier.Obj logs comp [] [] 2 driver.

(** ** Reasoning about computations *)

Section computations.
Context {Σ : Type}.

Lemma run_bind {A B} (m : M Σ A) (f : A → M Σ B) σ :
  bind m f σ =
  match m σ with
  | (inr a, σ1, j1) => let '(r, σ2, j2) := f a σ1 in (r, σ2, j1 ++ j2)
  | (inl e, σ1, j1) => (inl e, σ1, j1)
  end.
Proof. reflexivity. Qed.

Lemma only_ret {A} P (a : A) : only P (@ret Σ A a).
Proof. intros σ. constructor. Qed.

Lemma only_raise {A} P e : only P (@raise Σ A e).
Proof. intros σ. constructor. Qed.

Lemma only_gets {A} P (f : Σ → A) : only P (gets f).
Proof. intros σ. constructor. Qed.

Lemma only_modify P (f : Σ → Σ) : only P (modify f).
Proof. intros σ. constructor. Qed.

Lemma only_issue (P : call → Prop) c : P c → only P (@issue Σ c).
Proof. intros Hc σ. repeat constructor. exact Hc. Qed.

Lemma only_bind {A B} P (m : M Σ A) (f : A → M Σ B) :
  only P m → (∀ a, only P (f a)) → only P (bind m f).
Proof.
  intros Hm Hf σ. rewrite run_bind. specialize (Hm σ).
  destruct (m σ) as [[[e|a] σ1] j1]; [exact Hm|].
  specialize (Hf a σ1). destruct (f a σ1) as [[r σ2] j2].
  unfold journal in *; simpl in *. apply Forall_app; split; assumption.
Qed.

Lemma only_if {A} P (b : bool) (m1 m2 : M Σ A) :
  only P m1 → only P m2 → only P (if b then m1 else m2).
Proof. destruct b; auto. Qed.

End computations.

Lemma quits_none j : Forall (λ c, c ≠ Quit) j → quits j = 0.
Proof.
  unfold quits. induction 1 as [|c j Hc _ IH]; [reflexivity|].
  rewrite filter_cons_False; auto.
Qed.

Lemma quits_app j1 j2 : quits (j1 ++ j2) = quits j1 + quits j2.
Proof. unfold quits. rewrite filter_app, length_app. reflexivity. Qed.

Lemma printed_app j1 j2 : printed (j1 ++ j2) = printed j1 ++ printed j2.
Proof. unfold printed. apply omap_app. Qed.

Lemma printed_silent j :
  Forall (λ c, ∀ m, c ≠ Print m) j → printed j = [].
Proof.
  unfold printed. induction 1 as [|c j Hc _ IH]; [reflexivity|].
  destruct c; simpl; try exact IH. exfalso. eapply Hc. reflexivity.
Qed.

(** ** Compositions *)

(** Two sequences of tokens sort to the same sequence exactly when one is a
    rearrangement of the other: the order of the tokens is irrelevant and
    every repetition counts. *)
Lemma sorted_eq_iff (l1 l2 : list string) :
  Py.sorted l1 = Py.sorted l2 ↔ l1 ≡ₚ l2.
Proof.
  unfold Py.sorted. split.
  - intros E.
    rewrite <- (merge_sort_Permutation String.le l1), E.
    apply merge_sort_Permutation.
  - intros P. apply (Sorted_unique String.le).
    + apply Sorted_merge_sort, _.
    + apply Sorted_merge_sort, _.
    + rewrite !merge_sort_Permutation. exact P.
Qed.

Section validator.
Context {W : Type} `{Browser W}.

Lemma check_comp_run comp_html (self : Scraping.obj W) :
  Scraping.check_comp comp_html self =
  if bool_decide (0 < length (Scraping.comp self))
     && bool_decide (Py.sorted (Scraping.comp self) ≠ Py.sorted (Scraping.tokens comp_html))
  then (inr false, self, [])
  else (inr true, Scraping.set_comp (Scraping.tokens comp_html) self, []).
Proof.
  unfold Scraping.check_comp. rewrite run_bind. simpl.
  destruct (_ && _); reflexivity.
Qed.

(** C1: [check_comp] never raises and calls nothing; with no reference set
    (the empty tuple) it returns true and the reference it leaves is the
    sequence of observed tokens, the other attributes being as they were;
    with a reference set it returns true exactly when the sorted reference
    equals the sorted observed tokens, that is, exactly when the two hold
    the same tokens the same number of times in whatever order, and then
    too the reference it leaves is the sequence of observed tokens. *)
Theorem check_comp_contract comp_html (self : Scraping.obj W) :
  let observed := Scraping.tokens comp_html in
  let r := Scraping.check_comp comp_html self in
  journal r = []
  ∧ Scraping.logs (final r) = Scraping.logs self
  ∧ Scraping.enc_type (final r) = Scraping.enc_type self
  ∧ Scraping.driver (final r) = Scraping.driver self
  ∧ match Scraping.comp self with
    | [] => r = (inr true, Scraping.set_comp observed self, [])
            ∧ outcome r = inr true
            ∧ Scraping.comp (final r) = observed
    | _ :: _ =>
        ∃ b : bool, outcome r = inr b ∧ journal r = []
          ∧ (b = true ↔ Py.sorted (Scraping.comp self) = Py.sorted observed)
          ∧ (b = true ↔ Scraping.comp self ≡ₚ observed)
          ∧ (b = true → Scraping.comp (final r) = observed)
    end.
Proof.
  intros observed r. subst r. rewrite check_comp_run. fold observed.
  destruct (Scraping.comp self) as [|t old] eqn:E.
  { simpl. repeat split; reflexivity. }
  rewrite bool_decide_true by (simpl; lia). simpl.
  destruct (decide (Py.sorted (t :: old) = Py.sorted observed)) as [Heq|Hne].
  - rewrite bool_decide_false by (intros Hn; exact (Hn Heq)).
    repeat split.
    exists true. repeat split; auto. intros _. apply sorted_eq_iff, Heq.
  - rewrite bool_decide_true by exact Hne.
    repeat split.
    exists false. repeat split; try discriminate.
    + intros Heq. destruct (Hne Heq).
    + intros P. destruct Hne. apply sorted_eq_iff, P.
Qed.

(** C5: once a reference is set, the composition stored after a call is
    the composition stored before it, whatever was observed: the same
    tokens, the same number of times, so that the two sort to the same
    sequence; the other attributes are as they were and nothing is called.
    A call that finds a differing composition returns false and leaves the
    object as it was; a call that finds a matching one returns true, and
    the tuple it leaves lists the tokens of the reference in the order of
    the page. *)
Theorem check_comp_reference comp_html (self : Scraping.obj W) :
  Scraping.comp self ≠ [] →
  let observed := Scraping.tokens comp_html in
  let r := Scraping.check_comp comp_html self in
  journal r = []
  ∧ Scraping.comp (final r) ≡ₚ Scraping.comp self
  ∧ Py.sorted (Scraping.comp (final r)) = Py.sorted (Scraping.comp self)
  ∧ Scraping.logs (final r) = Scraping.logs self
  ∧ Scraping.enc_type (final r) = Scraping.enc_type self
  ∧ Scraping.driver (final r) = Scraping.driver self
  ∧ (¬ Scraping.comp self ≡ₚ observed → outcome r = inr false ∧ final r = self)
  ∧ (Scraping.comp self ≡ₚ observed →
       outcome r = inr true ∧ Scraping.comp (final r) = observed)
  ∧ ((outcome r = inr false ∧ final r = self)
     ∨ (outcome r = inr true
        ∧ final r = Scraping.set_comp observed self
        ∧ Scraping.comp (final r) ≡ₚ Scraping.comp self
        ∧ Py.sorted (Scraping.comp (final r)) = Py.sorted (Scraping.comp self))).
Proof.
  intros Hset observed r. subst r. rewrite check_comp_run. fold observed.
  destruct (Scraping.comp self) as [|t old] eqn:E; [done|].
  rewrite bool_decide_true by (simpl; lia). simpl.
  destruct (decide (Py.sorted (t :: old) = Py.sorted observed)) as [Heq|Hne].
  - rewrite bool_decide_false by (intros Hn; exact (Hn Heq)).
    assert (t :: old ≡ₚ observed) as Hp by (apply sorted_eq_iff, Heq).
    unfold final, outcome, journal. simpl.
    split; [reflexivity|]. split; [symmetry; exact Hp|].
    split; [symmetry; exact Heq|]. do 3 (split; [reflexivity|]).
    split; [intros Hn; destruct (Hn Hp)|].
    split; [intros _; split; reflexivity|].
    right. split; [reflexivity|]. split; [reflexivity|].
    split; symmetry; assumption.
  - rewrite bool_decide_true by exact Hne.
    assert (¬ t :: old ≡ₚ observed) as Hp
      by (intros Hp; apply Hne, sorted_eq_iff, Hp).
    unfold final, outcome, journal. simpl. rewrite E.
    do 6 (split; [reflexivity|]).
    split; [intros _; split; reflexivity|].
    split; [intros Hq; destruct (Hp Hq)|].
    left. split; reflexivity.
Qed.

End validator.

(** The reference is Paladin, Scholar.  The page of a log [a] lists
    Scholar, Paladin: the same composition; the page of a log [b] lists
    Paladin, Warrior: another one. *)
Lemma check_comp_reference_witness :
  let self := demo_obj [] ["Paladin"; "Scholar"] "all" in
  let same := Scraping.check_comp (demo_page "a") self in
  let other := Scraping.check_comp (demo_page "b") self in
  (outcome same = inr true
   ∧ Scraping.comp (final same) ≡ₚ ["Paladin"; "Scholar"]
   ∧ Py.sorted (Scraping.comp (final same)) = Py.sorted ["Paladin"; "Scholar"])
  ∧ (outcome other = inr false ∧ final other = self).
Proof.
  intros self same other.
  assert (Scraping.comp self ≠ []) as Hset by discriminate.
  destruct (check_comp_reference (demo_page "a") self Hset)
    as (_ & Hp & Hs & _ & _ & _ & _ & Hyes & _).
  destruct (check_comp_reference (demo_page "b") self Hset)
    as (_ & _ & _ & _ & _ & _ & Hno & _ & _).
  split.
  - split; [|split; [exact Hp|exact Hs]].
    apply Hyes. apply sorted_eq_iff. vm_compute. reflexivity.
  - apply Hno. intros Hperm. apply sorted_eq_iff in Hperm.
    vm_compute in Hperm. discriminate Hperm.
Defined.

(** ** Addresses *)

Lemma append_assoc (s1 s2 s3 : string) : (s1 +:+ s2) +:+ s3 = s1 +:+ (s2 +:+ s3).
Proof. induction s1 as [|c s1 IH]; [reflexivity|]. simpl. f_equal. exact IH. Qed.

Lemma append_nil_r (s : string) : s +:+ "" = s.
Proof. induction s as [|c s IH]; [reflexivity|]. simpl. f_equal. exact IH. Qed.

(** *** Substrings *)

Lemma prefix_cons a p c s :
  String.prefix (String a p) (String c s) = true ↔ a = c ∧ String.prefix p s = true.
Proof.
  simpl. destruct (ascii_dec a c) as [->|Hne]; split.
  - auto.
  - intros [_ Hp]. exact Hp.
  - discriminate.
  - intros [E _]. destruct (Hne E).
Qed.

Lemma prefix_empty s : String.prefix "" s = true.
Proof. destruct s; reflexivity. Qed.

Lemma prefix_app p t : String.prefix p (p +:+ t) = true.
Proof.
  induction p as [|a p IH]; simpl; [apply prefix_empty|].
  destruct (ascii_dec a a); [exact IH|done].
Qed.

Lemma contains_cons sub c s :
  Py.contains sub (String c s) = String.prefix sub (String c s) || Py.contains sub s.
Proof. reflexivity. Qed.

Lemma contains_here sub s : String.prefix sub s = true → Py.contains sub s = true.
Proof.
  intros E. destruct s as [|c s].
  - change (String.prefix sub "" || false = true). rewrite E. reflexivity.
  - rewrite contains_cons, E. reflexivity.
Qed.

Lemma contains_app_r sub s t :
  Py.contains sub t = true → Py.contains sub (s +:+ t) = true.
Proof.
  intros E. induction s as [|c s IH]; simpl; [exact E|].
  rewrite IH. apply orb_true_r.
Qed.

Lemma contains_tail a q s :
  Py.contains (String a q) s = true → Py.contains q s = true.
Proof.
  induction s as [|c s IH]; [discriminate|].
  rewrite !contains_cons. intros [E|E]%orb_true_iff.
  - apply prefix_cons in E as [_ E]. rewrite (contains_here _ _ E). apply orb_true_r.
  - rewrite (IH E). apply orb_true_r.
Qed.

Lemma mem_cons_false x a q :
  Py.mem x (String a q) = false → x ≠ a ∧ Py.mem x q = false.
Proof.
  simpl. intros [E1 E2]%orb_false_iff. split; [|exact E2].
  intros ->. rewrite Ascii.eqb_refl in E1. discriminate.
Qed.

(** A text without the character [x] that begins [s ++ x t] begins [s]. *)
Lemma prefix_app_sep x q s t :
  Py.mem x q = false →
  String.prefix q (s +:+ String x t) = true → String.prefix q s = true.
Proof.
  revert s. induction q as [|a q IH]; intros s Hq E; [apply prefix_empty|].
  apply mem_cons_false in Hq as [Hx Hq].
  destruct s as [|c s]; simpl String.append in E.
  - apply prefix_cons in E as [-> _]. done.
  - apply prefix_cons in E as [-> E]. apply prefix_cons. split; [done|].
    apply IH; assumption.
Qed.

Lemma contains_app_sep x q s t :
  Py.mem x q = false → Py.contains q s = false →
  Py.contains q (s +:+ String x t) = Py.contains q (String x t).
Proof.
  intros Hq. induction s as [|c s IH]; intros E; [reflexivity|].
  rewrite contains_cons in E. apply orb_false_iff in E as [E1 E2].
  simpl String.append. rewrite contains_cons, (IH E2).
  destruct (String.prefix q (String c (s +:+ String x t))) eqn:E3; [|reflexivity].
  apply (prefix_app_sep x q (String c s) t Hq) in E3. congruence.
Qed.

(** *** [replace] when the old and the new text begin with the same
    character and the old text has it nowhere else *)

Lemma replace_ne_cons old new c s :
  Py.replace_ne old new (String c s) =
  if String.prefix old (String c s)
  then new +:+ Py.replace_ne old new (Py.skip (String.length old - 1) s)
  else String c (Py.replace_ne old new s).
Proof.
  simp replace_ne.
  destruct (String.prefix old (String c s)); simpl; reflexivity.
Qed.

Lemma skip_all s : Py.skip (String.length s) s = "".
Proof. induction s as [|c s IH]; [reflexivity|exact IH]. Qed.

Section replace_marked.
Variables (x : ascii) (old' new' : string).
Hypothesis old'_unmarked : Py.mem x old' = false.

#[local] Abbreviation old := (String x old').
#[local] Abbreviation new := (String x new').

(** What the result begins with, up to the first [x], the text began with. *)
Lemma prefix_replace q s :
  Py.mem x q = false →
  String.prefix q (Py.replace_ne old new s) = true → String.prefix q s = true.
Proof.
  revert s. induction q as [|a q IH]; intros s Hq E; [apply prefix_empty|].
  apply mem_cons_false in Hq as [Hx Hq].
  destruct s as [|c s]; [simp replace_ne in E; discriminate|].
  rewrite replace_ne_cons in E.
  destruct (String.prefix old (String c s)).
  - simpl String.append in E. apply prefix_cons in E as [-> _]. done.
  - apply prefix_cons in E as [-> E]. apply prefix_cons. split; [done|].
    apply IH; assumption.
Qed.

(** No occurrence of [old] is left, provided [new] brings none. *)
Lemma replace_leaves_no_old :
  (∀ t, Py.contains old (new +:+ t) = Py.contains old t) →
  ∀ s, Py.contains old (Py.replace_ne old new s) = false.
Proof.
  intros Hnew s.
  remember (String.length s) as n eqn:En. revert s En.
  induction n as [n IH] using lt_wf_ind. intros s ->.
  destruct s as [|c s]; [simp replace_ne; reflexivity|].
  rewrite replace_ne_cons.
  destruct (String.prefix old (String c s)) eqn:E.
  - rewrite Hnew.
    apply (IH (String.length (Py.skip (String.length old - 1) s))); [|reflexivity].
    pose proof (Py.skip_length (String.length old - 1) s) as Hs.
    change (String.length (String c s)) with (S (String.length s)). lia.
  - rewrite contains_cons, (IH (String.length s));
      [|change (String.length (String c s)) with (S (String.length s)); lia|reflexivity].
    rewrite orb_false_r.
    destruct (String.prefix old (String c (Py.replace_ne old new s))) eqn:E2;
      [|reflexivity].
    apply prefix_cons in E2 as [<- E2].
    apply prefix_replace in E2; [|exact old'_unmarked].
    assert (String.prefix old (String x s) = true) by (apply prefix_cons; done).
    congruence.
Qed.

(** An occurrence of [old] makes an occurrence of [new]. *)
Lemma replace_brings_new s :
  Py.contains old s = true → Py.contains new (Py.replace_ne old new s) = true.
Proof.
  induction s as [|c s IH]; [discriminate|].
  rewrite contains_cons, replace_ne_cons.
  destruct (String.prefix old (String c s)); simpl orb.
  - intros _. apply contains_here, prefix_app.
  - intros E. rewrite contains_cons, (IH E). apply orb_true_r.
Qed.

(** A text that has [old'] nowhere and is followed by [old]: the one
    occurrence is the one at the end. *)
Lemma replace_at_end s :
  Py.contains old' s = false →
  Py.replace_ne old new (s +:+ old) = s +:+ new.
Proof.
  induction s as [|c s IH]; intros E.
  - simpl String.append. rewrite replace_ne_cons.
    rewrite <- (append_nil_r (String x old')) at 2. rewrite prefix_app.
    replace (String.length (String x old') - 1) with (String.length old')
      by (simpl; lia).
    rewrite skip_all.
    simp replace_ne. apply append_nil_r.
  - rewrite contains_cons in E. apply orb_false_iff in E as [E1 E2].
    simpl String.append. rewrite replace_ne_cons, (IH E2).
    destruct (String.prefix old (String c (s +:+ old))) eqn:E3; [|reflexivity].
    apply prefix_cons in E3 as [<- E3].
    apply prefix_app_sep in E3; [|exact old'_unmarked].
    apply contains_here in E3. congruence.
Qed.

End replace_marked.

(** C6, as the code has it: [to_healing_done] substitutes, and the address
    it makes of a damage address always has [type=healing] and never has
    [&type=damage-done]; when the summary address has no [type=damage-done]
    of its own, the healing address is the summary address followed by
    [&type=healing] and has no [type=damage-done] at all. *)
Theorem healing_url_of_damage_url (sum_url : string) :
  let hd_url := Scraping.healing_url (Scraping.damage_url sum_url) in
  hd_url = Py.replace "&type=damage-done" "&type=healing" (sum_url +:+ "&type=damage-done")
  ∧ Py.contains "type=healing" hd_url = true
  ∧ Py.contains "&type=damage-done" hd_url = false
  ∧ (Py.contains "type=damage-done" sum_url = false →
     hd_url = sum_url +:+ "&type=healing"
     ∧ Py.contains "type=damage-done" hd_url = false).
Proof.
  intros hd_url. subst hd_url.
  unfold Scraping.healing_url, Scraping.damage_url, Py.replace.
  split; [reflexivity|]. split; [|split].
  - apply (contains_tail "&"), (replace_brings_new "&").
    apply contains_app_r. reflexivity.
  - apply (replace_leaves_no_old "&"); [reflexivity|].
    intros t. reflexivity.
  - intros E. rewrite (replace_at_end "&"); [|reflexivity|exact E].
    split; [reflexivity|].
    rewrite (contains_app_sep "&"); [reflexivity|reflexivity|exact E].
Qed.

(** An ordinary report address, opened with no filter. *)
Lemma healing_url_of_damage_url_witness :
  let sum_url := Scraping.summary_url "all" "https://www.fflogs.com/reports/a1B2" in
  Py.contains "type=damage-done" sum_url = false
  ∧ Scraping.healing_url (Scraping.damage_url sum_url)
    = "https://www.fflogs.com/reports/a1B2#boss=-2&type=healing".
Proof.
  split; [reflexivity|].
  apply (healing_url_of_damage_url
           (Scraping.summary_url "all" "https://www.fflogs.com/reports/a1B2")).
  reflexivity.
Defined.

(** C6 as the specification words it fails: the address of a report copied
    from its damage tab carries [#type=damage-done], which the substitution
    does not touch. *)
Lemma healing_url_keeps_damage_done :
  let log_url := "https://www.fflogs.com/reports/a1B2#type=damage-done" in
  let hd_url := Scraping.healing_url (Scraping.damage_url (Scraping.summary_url "all" log_url)) in
  hd_url = "https://www.fflogs.com/reports/a1B2#type=damage-done#boss=-2&type=healing"
  ∧ Py.contains "type=damage-done" hd_url = true.
Proof. split; reflexivity. Qed.

Section scraper.
Context {W : Type} `{Browser W}.
Variable find_all_str : string → string → string.

(** C4: the address [to_summary] opens is the log's address followed by
    [#boss=-2] and then by [&wipes=1] for WIPES_ONLY, [&wipes=2] for
    KILLS_ONLY and nothing for ALL; it depends on the log's address and the
    filter alone, and it is the one call [to_summary] issues. *)
Theorem to_summary_grammar (filter : EncounterFilter) (log_url : string)
    (logs comp : list string) (w : W) :
  Scraping.summary_url (filter_arg filter) log_url
  = log_url +:+ "#boss=-2" +:+
    match filter with
    | WIPES_ONLY => "&wipes=1"
    | KILLS_ONLY => "&wipes=2"
    | ALL => ""
    end
  ∧ journal (Scraping.to_summary log_url (Scraping.Obj logs comp (filter_arg filter) w))
    = [Get (Scraping.summary_url (filter_arg filter) log_url)].
Proof.
  split.
  - destruct filter; unfold Scraping.summary_url; cbn;
      rewrite ?append_assoc; reflexivity.
  - unfold Scraping.to_summary, Scraping.driver_get, Scraping.on_driver.
    rewrite !run_bind; cbn.
    destruct (drv_get _ w); reflexivity.
Qed.

(** C7: with an empty list of logs [parse_logs] opens no page: it waits
    its half second, quits the driver once, and ends as [driver.quit]
    ends. *)
Theorem parse_logs_empty (comp : list string) (enc_type : string) (w : W) :
  let r := Scraping.parse_logs find_all_str (Scraping.Obj [] comp enc_type w) in
  journal r = [Sleep 500; Quit]
  ∧ quits (journal r) = 1
  ∧ navigations (journal r) = 0
  ∧ outcome r = match drv_quit (elapse 500 w) with
                | inl e => inl e
                | inr _ => inr ()
                end.
Proof.
  unfold Scraping.parse_logs, Scraping.quit, Scraping.sleep, Scraping.on_driver,
    bind, gets, issue, modify.
  simpl. destruct (drv_quit (elapse 500 w)); repeat split.
Qed.

End scraper.

(** ** Building the object *)

Lemma os_unlink_run filename h :
  Scraping.os_unlink filename h =
  if decide (filename ∈ held h) then (inl OSError, h, [Unlink filename])
  else (inr (), {| csv := csv h ∖ {[filename]}; held := held h |}, [Unlink filename]).
Proof.
  unfold Scraping.os_unlink, bind, issue, gets, raise, modify. simpl.
  destruct (decide (filename ∈ held h)); reflexivity.
Qed.

(** Clearing the directory: either every name is unlinked in turn, or the
    loop stops at a name that is held. *)
Lemma clear_run names h :
  let r := for_each Scraping.os_unlink names h in
  Forall is_unlink (journal r)
  ∧ match outcome r with
    | inr _ => journal r = Unlink <$> names
               ∧ csv (final r) = csv h ∖ list_to_set names
    | inl _ => ∃ f, f ∈ names ∧ f ∈ held h
    end.
Proof.
  revert h. induction names as [|x names IH]; intros h; simpl.
  - split; [constructor|]. split; [reflexivity|].
    unfold final; simpl. symmetry. apply difference_empty_L.
  - rewrite run_bind, os_unlink_run.
    destruct (decide (x ∈ held h)) as [Hx|Hx].
    + split; [repeat constructor|]. exists x. split; [left|exact Hx].
    + specialize (IH {| csv := csv h ∖ {[x]}; held := held h |}).
      destruct (for_each Scraping.os_unlink names _) as [[r h1] j1].
      unfold journal, outcome, final in *; simpl in *.
      destruct IH as [Hj IH]. split; [constructor; [exact I|exact Hj]|].
      destruct r as [e|[]].
      * destruct IH as (f & Hf & Hheld). exists f. split; [right; exact Hf|exact Hheld].
      * destruct IH as [-> ->]. split; [reflexivity|].
        apply difference_difference_l_L.
Qed.

(** The first occurrence of [x] in a list is where it is. *)
Lemma first_occurrence {A} (x : A) pre post l1 r1 :
  Forall (λ y, y ≠ x) l1 → Forall (λ y, y ≠ x) r1 →
  pre ++ x :: post = l1 ++ x :: r1 → pre = l1.
Proof.
  intros Hl Hr. revert pre. induction Hl as [|a l1 Ha _ IH]; intros pre E.
  - destruct pre as [|y pre]; [reflexivity|]. simplify_eq/=.
    apply Forall_app in Hr as [_ Hr]. inversion Hr; done.
  - destruct pre as [|y pre]; simplify_eq/=. f_equal. apply IH. assumption.
Qed.

Section construction.
Context {W : Type} `{Browser W}.

(** C9: whenever [__init__] comes to start Firefox, it has by then
    unlinked every name of the csv directory, one after the other, and the
    directory is empty; and it does come to start Firefox when no name of
    the directory is held. *)
Theorem init_clears_csv (logs : list string) (type : string) (headless cookies : bool)
    (host : Host) :
  let r := Scraping.__init__ (W:=W) logs type headless cookies host in
  (∀ pre post, journal r = pre ++ Firefox headless :: post →
     pre = Unlink <$> elements (csv host) ∧ csv (final r) = ∅)
  ∧ ((∀ f, f ∈ csv host → f ∉ held host) → Firefox headless ∈ journal r).
Proof.
  intros r. subst r. unfold Scraping.__init__.
  rewrite run_bind. simpl. rewrite run_bind.
  pose proof (clear_run (elements (csv host)) host) as [Hj Hc].
  destruct (for_each Scraping.os_unlink (elements (csv host)) host) as [[[e|[]] h1] j1];
    unfold journal, outcome, final in *; simpl in *.
  - split.
    + intros pre post ->. apply Forall_app in Hj as [_ Hj]. inversion Hj; done.
    + intros Hfree. destruct Hc as (f & Hf & Hheld).
      apply elem_of_elements in Hf. destruct (Hfree f Hf Hheld).
  - destruct Hc as [-> Hcsv].
    assert (csv h1 = ∅) as Hempty
      by (rewrite Hcsv, list_to_set_elements_L; apply difference_diag_L).
    assert (Forall (λ y, y ≠ Firefox headless) (Unlink <$> elements (csv host))) as Hu.
    { apply Forall_fmap, Forall_forall. intros f _. discriminate. }
    rewrite run_bind. simpl.
    destruct (launch headless) as [e|w]; simpl.
    + split.
      * intros pre post E. symmetry in E.
        apply first_occurrence in E; [done|exact Hu|constructor].
      * intros _. apply elem_of_app. right. left.
    + rewrite run_bind. simpl.
      destruct (drv_install_addon Scraping.ublock w) as [e|w']; simpl.
      * split.
        -- intros pre post E. symmetry in E.
           apply first_occurrence in E; [done|exact Hu|repeat constructor; done].
        -- intros _. apply elem_of_app. right. left.
      * rewrite run_bind. simpl.
        destruct (profile_add_extension Scraping.ublock) as [e|[]]; simpl.
        -- split.
           ++ intros pre post E. symmetry in E.
              apply first_occurrence in E; [done|exact Hu|repeat constructor; done].
           ++ intros _. apply elem_of_app. right. left.
        -- split.
           ++ intros pre post E. symmetry in E.
              apply first_occurrence in E; [done|exact Hu|repeat constructor; done].
           ++ intros _. apply elem_of_app. right. left.
Qed.

(** C8, as the code has it: the earlier implementation checks the
    encounter type, raising before it starts the browser for a value other
    than "wipes", "kills" and "all" and starting the browser for these;
    the implementation that skips stores whatever string it is given,
    does for it exactly what it does for "all", and later opens the same
    summary address as for "all". *)
Theorem encounter_type_check (logs : list string) (type : string)
    (headless cookies : bool) (host : Host) :
  type ≠ "wipes" → type ≠ "kills" → type ≠ "all" →
  Earlier.__init__ (W:=W) logs type headless host
    = (inl (AttributeError "Select a valid encounter type."), host, [])
  ∧ (∀ f : EncounterFilter,
       Earlier.__init__ (W:=W) logs (filter_arg f) headless host
       = (match launch headless with
          | inl e => inl e
          | inr w => inr (Earlier.Obj logs [] [] []
                            match f with WIPES_ONLY => 0 | KILLS_ONLY => 1 | ALL => 2 end w)
          end, host, [Firefox headless]))
  ∧ Scraping.__init__ (W:=W) logs type headless cookies host
    = (let '(r, h, j) := Scraping.__init__ (W:=W) logs "all" headless cookies host in
       (match r with
        | inl e => inl e
        | inr self => inr (Scraping.Obj (Scraping.logs self) (Scraping.comp self) type
                             (Scraping.driver self))
        end, h, j))
  ∧ (∀ log_url, Scraping.summary_url type log_url = Scraping.summary_url "all" log_url).
Proof.
  intros Hw Hk Ha.
  apply String.eqb_neq in Hw, Hk, Ha.
  split; [|split; [|split]].
  - unfold Earlier.__init__. rewrite run_bind, Hw, Hk, Ha. reflexivity.
  - intros f. unfold Earlier.__init__, bind, issue, ret, raise.
    destruct f; simpl; destruct (launch headless); reflexivity.
  - unfold Scraping.__init__, bind, gets. simpl.
    destruct (for_each Scraping.os_unlink (elements (csv host)) host) as [[[e|[]] h1] j1];
      [reflexivity|].
    unfold issue. simpl.
    destruct (launch headless) as [e|w]; [reflexivity|]. simpl.
    destruct (drv_install_addon Scraping.ublock w) as [e|w']; [reflexivity|]. simpl.
    destruct (profile_add_extension Scraping.ublock); reflexivity.
  - intros log_url. unfold Scraping.summary_url. rewrite Hw, Hk. reflexivity.
Qed.

End construction.

(** Two files of an earlier run lie in the directory. *)
Lemma init_clears_csv_witness :
  let host := {| csv := {[ "damage.csv"; "healing.csv" ]}; held := ∅ |} in
  let r := Scraping.__init__ (W:=string) ["a/1"] "all" true false host in
  (length (elements (csv host)) = 2
   ∧ journal r = (Unlink <$> elements (csv host))
                 ++ [Firefox true; InstallAddon Scraping.ublock;
                     AddExtension Scraping.ublock])
  ∧ csv (final r) = ∅
  ∧ Firefox true ∈ journal r.
Proof.
  intros host r.
  assert (journal r = (Unlink <$> elements (csv host))
                      ++ Firefox true :: [InstallAddon Scraping.ublock;
                                          AddExtension Scraping.ublock]) as E
    by (vm_compute; reflexivity).
  split; [split; [vm_compute; reflexivity|exact E]|].
  destruct (init_clears_csv (W:=string) ["a/1"] "all" true false host) as [H1 H2].
  split.
  - exact (proj2 (H1 _ _ E)).
  - apply H2. intros f _. apply not_elem_of_empty.
Defined.

Lemma encounter_type_check_witness :
  Earlier.__init__ (W:=string) ["a/1"] "bosses" true {| csv := ∅; held := ∅ |}
  = (inl (AttributeError "Select a valid encounter type."), {| csv := ∅; held := ∅ |}, [])
  ∧ Scraping.summary_url "bosses" "a/1" = "a/1#boss=-2".
Proof.
  destruct (encounter_type_check (W:=string) ["a/1"] "bosses" true false
              {| csv := ∅; held := ∅ |}) as (E1 & _ & _ & E4); try discriminate.
  split; [exact E1|]. rewrite E4. reflexivity.
Defined.

(** C8 as the specification words it fails: where the browser starts and
    the ad blocker is there to be installed, the implementation that skips
    builds its object for a value that is no encounter type. *)
Lemma init_accepts_any_type :
  Scraping.__init__ (W:=string) ["a/1"] "bosses" true false {| csv := ∅; held := ∅ |}
  = (inr (Scraping.Obj ["a/1"] [] "bosses" "about:blank"),
     {| csv := ∅; held := ∅ |},
     [Firefox true; InstallAddon Scraping.ublock; AddExtension Scraping.ublock]).
Proof. vm_compute. reflexivity. Qed.

(** ** The loop of [parse_logs] *)

Section orchestrator.
Context {W : Type} `{Browser W}.
Variable find_all_str : string → string → string.

Lemma only_on_driver P (op : W → exn + W) : only P (Scraping.on_driver op).
Proof.
  intros self. unfold Scraping.on_driver.
  destruct (op (Scraping.driver self)); constructor.
Qed.

Lemma only_ask_driver {A} P (q : W → exn + A) : only P (Scraping.ask_driver q).
Proof.
  intros self. unfold Scraping.ask_driver.
  destruct (q (Scraping.driver self)); constructor.
Qed.

Ltac only_step :=
  lazymatch goal with
  | |- only _ (bind _ _) => apply only_bind; [|intros ?]
  | |- only _ (ret _) => apply only_ret
  | |- only _ (raise _) => apply only_raise
  | |- only _ (gets _) => apply only_gets
  | |- only _ (modify _) => apply only_modify
  | |- only _ (Scraping.on_driver _) => apply only_on_driver
  | |- only _ (Scraping.ask_driver _) => apply only_ask_driver
  | |- only _ (issue _) => apply only_issue
  | |- only _ (if _ then _ else _) => apply only_if
  end.

Ltac only_methods :=
  unfold Scraping.to_summary, Scraping.get_comp, Scraping.check_comp,
    Scraping.to_damage_dealt, Scraping.get_damage_dealt,
    Scraping.to_healing_done, Scraping.get_healing_done,
    Scraping.sleep, Scraping.quit, Scraping.current_url, Scraping.page_source,
    Scraping.driver_get, Scraping.wait_until, Scraping.send_enter;
  repeat only_step.

Lemma loop_calls max counter ls : only in_loop (Scraping.loop find_all_str max counter ls).
Proof.
  revert counter. induction ls as [|log rest IH]; intros counter; simpl.
  - apply only_ret.
  - only_methods; try exact I; apply IH.
Qed.

Lemma loop_never_quits max counter ls self :
  quits (journal (Scraping.loop find_all_str max counter ls self)) = 0.
Proof.
  apply quits_none. eapply Forall_impl; [apply loop_calls|].
  intros c Hc ->. exact Hc.
Qed.

Lemma wind_down_journal (self : Scraping.obj W) :
  journal ((Scraping.sleep 500 ;; Scraping.quit) self) = [Sleep 500; Quit].
Proof.
  unfold Scraping.sleep, Scraping.quit, Scraping.on_driver, bind, issue, modify.
  simpl. destruct (drv_quit _); reflexivity.
Qed.

(** C3, as the code has it: when every turn of the loop returns, whether
    the logs were finished or left out, [parse_logs] quits the driver
    exactly once, as its last call; when a turn of the loop raises,
    [parse_logs] ends there with that exception and has not quit the
    driver. *)
Theorem parse_logs_shutdown (self : Scraping.obj W) :
  let ls := Scraping.logs self in
  let turns := Scraping.loop find_all_str (length ls) 1 ls self in
  let r := Scraping.parse_logs find_all_str self in
  match outcome turns with
  | inr _ => journal r = journal turns ++ [Sleep 500; Quit]
             ∧ quits (journal r) = 1 ∧ last (journal r) = Some Quit
  | inl e => r = (inl e, final turns, journal turns)
             ∧ quits (journal r) = 0
  end.
Proof.
  intros ls turns r. subst ls turns r. unfold Scraping.parse_logs.
  rewrite run_bind. simpl. rewrite run_bind.
  pose proof (loop_never_quits (length (Scraping.logs self)) 1 (Scraping.logs self) self) as Hq.
  destruct (Scraping.loop _ _ _ _ self) as [[[e|[]] self1] j1];
    unfold journal, outcome, final in *; simpl in *.
  - split; [reflexivity|exact Hq].
  - pose proof (wind_down_journal self1) as Hend.
    destruct ((Scraping.sleep 500;; Scraping.quit) self1) as [[r2 σ2] j2].
    unfold journal in Hend. simpl in *. subst j2.
    split; [reflexivity|]. rewrite quits_app, Hq. split; [reflexivity|].
    change (last (j1 ++ [Sleep 500] ++ [Quit]) = Some Quit).
    rewrite app_assoc. apply last_snoc.
Qed.

Lemma to_summary_run log_url (self : Scraping.obj W) :
  Scraping.to_summary log_url self =
  let url := Scraping.summary_url (Scraping.enc_type self) log_url in
  match drv_get url (Scraping.driver self) with
  | inr w => (inr (), Scraping.set_driver w self, [Get url])
  | inl e => (inl e, self, [Get url])
  end.
Proof.
  unfold Scraping.to_summary, Scraping.driver_get, Scraping.on_driver,
    bind, gets, issue.
  simpl. destruct (drv_get _ _); reflexivity.
Qed.

Lemma get_comp_run (self : Scraping.obj W) :
  Scraping.get_comp find_all_str self =
  let table := "//table[@class='composition-table']" in
  match drv_wait XPATH table 10 (Scraping.driver self) with
  | inr w =>
      match drv_page_source w with
      | inr page => (inr (find_all_str "composition-entry" page),
                     Scraping.set_driver w self,
                     [WaitUntil XPATH table 10; PageSource])
      | inl e => (inl e, Scraping.set_driver w self,
                  [WaitUntil XPATH table 10; PageSource])
      end
  | inl e => (inl e, self, [WaitUntil XPATH table 10])
  end.
Proof.
  unfold Scraping.get_comp, Scraping.wait_until, Scraping.page_source,
    Scraping.on_driver, Scraping.ask_driver, bind, gets, issue, ret.
  simpl. destruct (drv_wait _ _ _ _) as [e|w]; [reflexivity|].
  simpl. destruct (drv_page_source w); reflexivity.
Qed.

(** C2: a log whose page loads and shows a composition that differs from
    the reference is left out without an exception: [check_comp] returns
    false and changes nothing, the turn of the loop issues the announcement,
    the navigation to the summary, the wait for the table, the reading of
    the page and the "left out" line and nothing else (no damage or
    healing page, no export), and the loop goes on with the remaining
    logs, the counter and the reference being what they were. *)
Theorem mismatch_skips_log max counter log rest (self : Scraping.obj W) w1 w2 page :
  let url := Scraping.summary_url (Scraping.enc_type self) log in
  let table := "//table[@class='composition-table']" in
  drv_get url (Scraping.driver self) = inr w1 →
  drv_wait XPATH table 10 w1 = inr w2 →
  drv_page_source w2 = inr page →
  let comp_html := find_all_str "composition-entry" page in
  Scraping.comp self ≠ [] →
  Py.sorted (Scraping.comp self) ≠ Py.sorted (Scraping.tokens comp_html) →
  let self' := Scraping.set_driver w2 self in
  let turn := [Print (Beginning counter max); Get url; WaitUntil XPATH table 10;
               PageSource; Print LeftOut] in
  Scraping.check_comp comp_html self' = (inr false, self', [])
  ∧ Scraping.loop find_all_str max counter (log :: rest) self =
    (let '(r, σ, j) := Scraping.loop find_all_str max counter rest self' in
     (r, σ, turn ++ j))
  ∧ exports turn = 0 ∧ navigations turn = 1.
Proof.
  intros url table Hget Hwait Hpage comp_html Hset Hdiff self' turn.
  assert (Scraping.check_comp comp_html self' = (inr false, self', [])) as Hcheck.
  { rewrite check_comp_run. simpl Scraping.comp.
    rewrite bool_decide_true, bool_decide_true; [reflexivity|exact Hdiff|].
    destruct (Scraping.comp self); [done|simpl; lia]. }
  split; [exact Hcheck|]. split; [|split; reflexivity].
  simpl Scraping.loop. rewrite run_bind. simpl.
  rewrite run_bind, to_summary_run. simpl. fold url. rewrite Hget.
  rewrite run_bind, get_comp_run. simpl. fold table. rewrite Hwait, Hpage.
  rewrite run_bind. fold comp_html.
  change (Scraping.set_driver w2 (Scraping.set_driver w1 self)) with self'.
  rewrite Hcheck. simpl. rewrite run_bind. simpl.
  destruct (Scraping.loop find_all_str max counter rest self') as [[r σ] j].
  reflexivity.
Qed.

(** *** The progress lines *)

Lemma printed_issue_print_bind {Σ B} x (f : unit → M Σ B) σ :
  printed (journal (bind (issue (Print x)) f σ)) = x :: printed (journal (f () σ)).
Proof. rewrite run_bind. simpl. destruct (f () σ) as [[r σ2] j2]. reflexivity. Qed.

Lemma printed_bind_silent {Σ A B} (Q : list msg → Prop) (m : M Σ A) (f : A → M Σ B) σ :
  silent m → Q [] → (∀ a σ1, Q (printed (journal (f a σ1)))) →
  Q (printed (journal (bind m f σ))).
Proof.
  intros Hm H0 Hf. rewrite run_bind. specialize (Hm σ).
  destruct (m σ) as [[[e|a] σ1] j1]; unfold journal in *; simpl in *.
  - rewrite (printed_silent _ Hm). exact H0.
  - specialize (Hf a σ1). destruct (f a σ1) as [[r σ2] j2]. simpl in *.
    rewrite printed_app, (printed_silent _ Hm). exact Hf.
Qed.

Ltac through_silent :=
  cbv beta;
  lazymatch goal with
  | |- progress ?max ?c (?b :: printed (journal (bind ?m ?f ?σ))) =>
      apply (printed_bind_silent (λ l, progress max c (b :: l)) m f σ);
      [ unfold silent; only_methods; done
      | apply progress_aborted
      | intros ? ?; cbv beta ]
  end.

Lemma loop_progress max counter ls (self : Scraping.obj W) :
  progress max counter (printed (journal (Scraping.loop find_all_str max counter ls self))).
Proof.
  revert counter self. induction ls as [|log rest IH]; intros counter self.
  - apply progress_end.
  - simpl Scraping.loop. rewrite printed_issue_print_bind.
    through_silent. through_silent. through_silent.
    match goal with |- context [negb ?b] => destruct b end; unfold negb; cbv iota.
    + through_silent. through_silent. through_silent. through_silent.
      rewrite printed_issue_print_bind. apply progress_done, IH.
    + cbv beta. rewrite printed_issue_print_bind. apply progress_skip, IH.
Qed.

Lemma parse_logs_printed (self : Scraping.obj W) :
  printed (journal (Scraping.parse_logs find_all_str self))
  = printed (journal (Scraping.loop find_all_str (length (Scraping.logs self)) 1
                        (Scraping.logs self) self)).
Proof.
  unfold Scraping.parse_logs. rewrite run_bind. simpl. rewrite run_bind.
  destruct (Scraping.loop _ _ _ _ self) as [[[e|[]] self1] j1]; [reflexivity|].
  pose proof (wind_down_journal self1) as Hend.
  destruct ((Scraping.sleep 500;; Scraping.quit) self1) as [[r2 σ2] j2].
  unfold journal in *. simpl in *. subst j2.
  rewrite printed_app. simpl. apply app_nil_r.
Qed.

(** The two tabs are reached from the address the browser shows. *)
Lemma to_damage_dealt_run (self : Scraping.obj W) :
  journal (Scraping.to_damage_dealt self)
  = match drv_current_url (Scraping.driver self) with
    | inr sum_url => [CurrentUrl; Get (Scraping.damage_url sum_url)]
    | inl _ => [CurrentUrl]
    end.
Proof.
  unfold Scraping.to_damage_dealt, Scraping.current_url, Scraping.driver_get,
    Scraping.on_driver, Scraping.ask_driver, bind, gets, issue.
  simpl. destruct (drv_current_url _); [reflexivity|].
  simpl. destruct (drv_get _ _); reflexivity.
Qed.

Lemma to_healing_done_run (self : Scraping.obj W) :
  journal (Scraping.to_healing_done self)
  = match drv_current_url (Scraping.driver self) with
    | inr dd_url => [CurrentUrl; Get (Scraping.healing_url dd_url)]
    | inl _ => [CurrentUrl]
    end.
Proof.
  unfold Scraping.to_healing_done, Scraping.current_url, Scraping.driver_get,
    Scraping.on_driver, Scraping.ask_driver, bind, gets, issue.
  simpl. destruct (drv_current_url _); [reflexivity|].
  simpl. destruct (drv_get _ _); reflexivity.
Qed.

(** The earlier implementation does not leave a log out: on a mismatch it
    quits the driver and raises. *)
Lemma earlier_check_comp_raises comp_html (self : Earlier.obj W) :
  Earlier.comp self ≠ [] →
  Py.sorted (Earlier.comp self) ≠ Py.sorted (Scraping.tokens comp_html) →
  Earlier.check_comp comp_html self
  = match drv_quit (Earlier.driver self) with
    | inr w => (inl (AttributeError "Group comps in provided logs don't match."),
                Earlier.set_driver w self, [Quit])
    | inl e => (inl e, self, [Quit])
    end.
Proof.
  intros Hset Hdiff. unfold Earlier.check_comp. rewrite run_bind. simpl.
  fold (Scraping.tokens comp_html).
  rewrite bool_decide_true, bool_decide_true; [|exact Hdiff|].
  - unfold Earlier.quit, bind, issue, raise. simpl.
    destruct (drv_quit _); reflexivity.
  - destruct (Earlier.comp self); [done|simpl; lia].
Qed.

Lemma begun_app l1 l2 : begun (l1 ++ l2) = begun l1 + begun l2.
Proof. induction l1 as [|[] l1 IH]; simpl; lia. Qed.

Lemma skipped_app l1 l2 : skipped (l1 ++ l2) = skipped l1 + skipped l2.
Proof. induction l1 as [|[] l1 IH]; simpl; lia. Qed.

Lemma finished_app l1 l2 : finished (l1 ++ l2) = finished l1 + finished l2.
Proof. induction l1 as [|[] l1 IH]; simpl; lia. Qed.

(** The index of an announcement counts the logs finished before it, and
    falls behind the position of its log by the logs left out before it. *)
Lemma progress_index max c0 l :
  progress max c0 l →
  ∀ pre c m post, l = pre ++ Beginning c m :: post →
    c = c0 + finished pre ∧ c + skipped pre = c0 + begun pre ∧ m = max.
Proof.
  induction 1 as [c0|c0|c0 l _ IH|c0 l _ IH]; intros pre c m post E.
  - destruct pre; discriminate.
  - destruct pre as [|x [|y pre]]; simplify_eq/=. lia.
  - destruct pre as [|x [|y pre]]; simplify_eq/=; [lia|].
    destruct (IH _ _ _ _ eq_refl) as (? & ? & ?). lia.
  - destruct pre as [|x [|y pre]]; simplify_eq/=; [lia|].
    destruct (IH _ _ _ _ eq_refl) as (? & ? & ?). lia.
Qed.

(** C10: in any run of [parse_logs], the index printed in an announcement
    is one more than the number of logs finished before it: finishing a
    log advances the counter, leaving one out does not.  The index plus
    the number of logs left out before is the position of the log in the
    list; so the log that follows a log left out is announced with the
    index of that log, and its index is smaller than its position. *)
Theorem progress_counter (self : Scraping.obj W) pre c m post :
  printed (journal (Scraping.parse_logs find_all_str self))
  = pre ++ Beginning c m :: post →
  m = length (Scraping.logs self)
  ∧ c = 1 + finished pre
  ∧ c + skipped pre = begun pre + 1
  ∧ (∀ c' m' post', post = LeftOut :: Beginning c' m' :: post' →
       c' = c ∧ c' < begun pre + 2).
Proof.
  rewrite parse_logs_printed. intros E.
  pose proof (loop_progress (length (Scraping.logs self)) 1 (Scraping.logs self) self) as P.
  destruct (progress_index _ _ _ P _ _ _ _ E) as (E1 & E2 & E3).
  split; [lia|]. split; [lia|]. split; [lia|].
  intros c' m' post' ->.
  change (pre ++ Beginning c m :: LeftOut :: Beginning c' m' :: post')
    with (pre ++ [Beginning c m; LeftOut] ++ Beginning c' m' :: post') in E.
  rewrite app_assoc in E.
  destruct (progress_index _ _ _ P _ _ _ _ E) as (E1' & E2' & _).
  rewrite finished_app in E1'. rewrite skipped_app, begun_app in E2'.
  simpl in E1', E2'. lia.
Qed.

End orchestrator.

(** C3 as the specification words it fails: the table of the first log
    never shows, the wait times out, and the exception leaves [parse_logs]
    with the browser still open. *)
Lemma parse_logs_leaks_session :
  let r := Scraping.parse_logs demo_find_all (demo_obj ["x/1"; "a/2"] [] "all") in
  outcome r = inl TimeoutException
  ∧ journal r = [Print (Beginning 1 2); Get "x/1#boss=-2";
                 WaitUntil XPATH "//table[@class='composition-table']" 10]
  ∧ quits (journal r) = 0.
Proof. vm_compute. repeat split. Qed.

(** The first of two logs has a Warrior where the reference has a Scholar. *)
Lemma mismatch_skips_log_witness :
  let self := demo_obj ["b/1"; "a/2"] ["Scholar"; "Paladin"] "all" in
  let url := Scraping.summary_url (Scraping.enc_type self) "b/1" in
  let table := "//table[@class='composition-table']" in
  let comp_html := demo_find_all "composition-entry" (demo_page "b/1#boss=-2") in
  let self' := Scraping.set_driver "b/1#boss=-2" self in
  let turn := [Print (Beginning 1 2); Get url; WaitUntil XPATH table 10;
               PageSource; Print LeftOut] in
  (url = "b/1#boss=-2" ∧ Scraping.tokens comp_html = ["Paladin"; "Warrior"])
  ∧ Scraping.check_comp comp_html self' = (inr false, self', [])
  ∧ Scraping.loop demo_find_all 2 1 ("b/1" :: ["a/2"]) self =
    (let '(r, σ, j) := Scraping.loop demo_find_all 2 1 ["a/2"] self' in
     (r, σ, turn ++ j))
  ∧ exports turn = 0 ∧ navigations turn = 1.
Proof.
  intros self url table comp_html self' turn.
  split; [split; reflexivity|].
  apply (mismatch_skips_log demo_find_all 2 1 "b/1" ["a/2"] self
           "b/1#boss=-2" "b/1#boss=-2" (demo_page "b/1#boss=-2")).
  - reflexivity.
  - reflexivity.
  - reflexivity.
  - discriminate.
  - vm_compute. discriminate.
Defined.

(** Three logs, the second of which is left out. *)
Lemma progress_counter_witness :
  let self := demo_obj ["a/1"; "b/2"; "a/3"] [] "all" in
  printed (journal (Scraping.parse_logs demo_find_all self))
  = [Beginning 1 3; Finished 1 3; Beginning 2 3; LeftOut; Beginning 2 3; Finished 2 3]
  ∧ (3 = length (Scraping.logs self)
     ∧ 2 = 1 + finished [Beginning 1 3; Finished 1 3]
     ∧ 2 + skipped [Beginning 1 3; Finished 1 3] = begun [Beginning 1 3; Finished 1 3] + 1
     ∧ (∀ c' m' post',
          [LeftOut; Beginning 2 3; Finished 2 3] = LeftOut :: Beginning c' m' :: post' →
          c' = 2 ∧ c' < begun [Beginning 1 3; Finished 1 3] + 2)).
Proof.
  split; [vm_compute; reflexivity|].
  apply (progress_counter demo_find_all
           (demo_obj ["a/1"; "b/2"; "a/3"] [] "all")
           [Beginning 1 3; Finished 1 3] 2 3 [LeftOut; Beginning 2 3; Finished 2 3]).
  vm_compute. reflexivity.
Defined.

(** * Further properties of the code *)

(** ** The tokens of [check_comp] *)

Lemma findall_quoted_cons c s :
  Py.findall_quoted (String c s) =
  match Py.match_here (String c s) with
  | Some (m, rest) => m :: Py.findall_quoted rest
  | None => Py.findall_quoted s
  end.
Proof.
  simp findall_quoted.
  destruct (Logic.inspect (Py.match_here (String c s))) as [[[m rest]|] E].
  - transitivity (m :: Py.findall_quoted rest); [reflexivity|].
    rewrite E. reflexivity.
  - transitivity (Py.findall_quoted s); [reflexivity|].
    rewrite E. reflexivity.
Qed.

Lemma letters_spec s run rest :
  Py.letters s = (run, rest) → all_alpha run = true ∧ s = run +:+ rest.
Proof.
  revert run rest. induction s as [|c s IH]; intros run rest; simpl.
  - intros [= <- <-]. split; reflexivity.
  - destruct (Py.is_alpha c) eqn:Hc.
    + destruct (Py.letters s) as [run' rest'] eqn:E. intros [= <- <-].
      destruct (IH _ _ eq_refl) as [Ha ->]. simpl. rewrite Hc, Ha. split; reflexivity.
    + intros [= <- <-]. split; reflexivity.
Qed.

(** A match is a run of letters between two quotes, and the text goes on
    behind it. *)
Lemma match_here_spec s m rest :
  Py.match_here s = Some (m, rest) →
  ∃ run, all_alpha run = true ∧ m = quoted run ∧ s = m +:+ rest.
Proof.
  destruct s as [|q s1]; simpl; [done|].
  destruct (Ascii.eqb q Py.quote) eqn:Hq; [|done].
  apply Ascii.eqb_eq in Hq as ->.
  destruct (Py.letters s1) as [run [|q' rest']] eqn:E; [done|].
  destruct (Ascii.eqb q' Py.quote) eqn:Hq'; [|done].
  apply Ascii.eqb_eq in Hq' as ->.
  intros [= <- <-]. apply letters_spec in E as [Ha ->].
  exists run. split; [exact Ha|]. split; [reflexivity|].
  unfold quoted. simpl. f_equal. rewrite append_assoc. reflexivity.
Qed.

Lemma alpha_not_quote c : Py.is_alpha c = true → Py.mem c (String Py.quote "") = false.
Proof.
  intros Hc. simpl. rewrite orb_false_r. apply Ascii.eqb_neq. intros ->.
  vm_compute in Hc. discriminate.
Qed.

Lemma rstrip_quote run :
  all_alpha run = true →
  Py.rstrip (String Py.quote "") (run +:+ String Py.quote "") = run.
Proof.
  induction run as [|c run IH]; [reflexivity|].
  simpl all_alpha. intros [Hc Ha]%andb_true_iff.
  simpl String.append. simpl Py.rstrip. rewrite (IH Ha).
  destruct run; [|reflexivity].
  pose proof (alpha_not_quote c Hc) as Hq. simpl in Hq. rewrite Hq. reflexivity.
Qed.

(** Stripping the quotes of a match leaves its letters. *)
Lemma strip_quoted run :
  all_alpha run = true → Py.strip (String Py.quote "") (quoted run) = run.
Proof.
  intros Ha. unfold Py.strip, quoted.
  assert (Py.lstrip (String Py.quote "") (String Py.quote (run +:+ String Py.quote ""))
          = Py.lstrip (String Py.quote "") (run +:+ String Py.quote "")) as -> by reflexivity.
  destruct run as [|c run]; [reflexivity|].
  simpl all_alpha in Ha. apply andb_true_iff in Ha as [Hc Ha'].
  pose proof (alpha_not_quote c Hc) as Hq. simpl in Hq.
  simpl String.append. simpl Py.lstrip. rewrite Hq.
  apply (rstrip_quote (String c run)). simpl. rewrite Hc, Ha'. reflexivity.
Qed.

Lemma contains_prefix_app sub t : Py.contains sub (sub +:+ t) = true.
Proof. apply contains_here, prefix_app. Qed.

Lemma contains_scan sub c s :
  Py.contains sub s = true → Py.contains sub (String c s) = true.
Proof. intros E. rewrite contains_cons, E. apply orb_true_r. Qed.

(** X1: every token that [check_comp] reads off the markup is a text of
    ASCII letters (possibly empty) that stands between two quotes in the
    markup; the quotes themselves are stripped. *)
Theorem tokens_are_quoted_letters (comp_html t : string) :
  t ∈ Scraping.tokens comp_html →
  all_alpha t = true ∧ Py.contains (quoted t) comp_html = true.
Proof.
  unfold Scraping.tokens.
  remember (String.length comp_html) as n eqn:En. revert comp_html En.
  induction n as [n IH] using lt_wf_ind. intros s -> Ht.
  destruct s as [|c s]; [simp findall_quoted in Ht; inversion Ht|].
  rewrite findall_quoted_cons in Ht.
  destruct (Py.match_here (String c s)) as [[m rest]|] eqn:E.
  - pose proof (Py.match_here_length _ _ _ E) as Hlen.
    apply match_here_spec in E as (run & Ha & -> & Es).
    change (t ∈ Py.strip (String Py.quote "") (quoted run)
                :: map (Py.strip (String Py.quote "")) (Py.findall_quoted rest)) in Ht.
    rewrite (strip_quoted run Ha) in Ht.
    apply elem_of_cons in Ht as [->|Ht].
    + split; [exact Ha|]. rewrite Es. apply contains_prefix_app.
    + destruct (IH _ Hlen rest eq_refl Ht) as [Ht1 Ht2].
      split; [exact Ht1|]. rewrite Es. apply contains_app_r, Ht2.
  - assert (String.length s < String.length (String c s)) as Hlen by (simpl; lia).
    destruct (IH _ Hlen s eq_refl Ht) as [Ht1 Ht2].
    split; [exact Ht1|]. apply contains_scan, Ht2.
Qed.

Lemma tokens_are_quoted_letters_witness :
  "Warrior" ∈ Scraping.tokens (demo_page "b/1")
  ∧ all_alpha "Warrior" = true
  ∧ Py.contains (quoted "Warrior") (demo_page "b/1") = true.
Proof.
  assert ("Warrior" ∈ Scraping.tokens (demo_page "b/1")) as Ht
    by (vm_compute; right; left).
  split; [exact Ht|].
  exact (tokens_are_quoted_letters (demo_page "b/1") "Warrior" Ht).
Defined.

Lemma tokens_no_quote comp_html :
  Py.mem Py.quote comp_html = false → Scraping.tokens comp_html = [].
Proof.
  unfold Scraping.tokens. induction comp_html as [|c s IH]; [reflexivity|].
  intros Hq. rewrite findall_quoted_cons.
  change (Ascii.eqb Py.quote c || Py.mem Py.quote s = false) in Hq.
  apply orb_false_iff in Hq as [Hc Hs].
  rewrite Ascii.eqb_sym in Hc.
  unfold Py.match_here. rewrite Hc. apply IH, Hs.
Qed.

Lemma sorted_nil_inv l : Py.sorted l = Py.sorted [] → l = [].
Proof. intros E. apply sorted_eq_iff in E. apply Permutation_nil_r, E. Qed.

Section empty_page.
Context {W : Type} `{Browser W}.

(** X2: markup without a quote yields no token.  While no reference is
    set such a page is accepted and leaves the reference unset, so that the
    next log defines it; once a reference is set the page is a mismatch. *)
Theorem check_comp_without_tokens comp_html (self : Scraping.obj W) :
  Py.mem Py.quote comp_html = false →
  Scraping.check_comp comp_html self =
  match Scraping.comp self with
  | [] => (inr true, self, [])
  | _ :: _ => (inr false, self, [])
  end.
Proof.
  intros Hq. rewrite check_comp_run, (tokens_no_quote _ Hq).
  destruct self as [ls [|t old] enc w]; simpl Scraping.comp; [reflexivity|].
  rewrite bool_decide_true by (simpl; lia).
  rewrite bool_decide_true; [reflexivity|].
  intros E. apply sorted_nil_inv in E. discriminate.
Qed.

End empty_page.

Lemma check_comp_without_tokens_witness :
  Scraping.check_comp "<table class='composition-table'></table>"
    (demo_obj ["a/1"] ["Scholar"; "Paladin"] "all")
  = (inr false, demo_obj ["a/1"] ["Scholar"; "Paladin"] "all", []).
Proof.
  apply (check_comp_without_tokens "<table class='composition-table'></table>"
           (demo_obj ["a/1"] ["Scholar"; "Paladin"] "all")).
  reflexivity.
Defined.

(** ** Substitution in addresses *)

Lemma replace_ne_absent old new s :
  Py.contains old s = false → Py.replace_ne old new s = s.
Proof.
  induction s as [|c s IH]; intros E; [simp replace_ne; reflexivity|].
  rewrite contains_cons in E. apply orb_false_iff in E as [E1 E2].
  rewrite replace_ne_cons, E1, (IH E2). reflexivity.
Qed.

Lemma skip_app p t : Py.skip (String.length p) (p +:+ t) = t.
Proof. induction p as [|c p IH]; [destruct t; reflexivity|exact IH]. Qed.

(** The first occurrence of the marked text, when what precedes it has the
    unmarked text nowhere. *)
Lemma replace_ne_first x old' new' a b :
  Py.mem x old' = false → Py.contains old' a = false →
  Py.replace_ne (String x old') (String x new') (a +:+ String x (old' +:+ b))
  = a +:+ String x (new' +:+ Py.replace_ne (String x old') (String x new') b).
Proof.
  intros Hx. induction a as [|c a IH]; intros E.
  - simpl String.append. rewrite replace_ne_cons.
    change (String x (old' +:+ b)) with (String x old' +:+ b).
    rewrite prefix_app.
    replace (String.length (String x old') - 1) with (String.length old')
      by (simpl; lia).
    change (String x old' +:+ b) with (String x (old' +:+ b)).
    rewrite skip_app. reflexivity.
  - rewrite contains_cons in E. apply orb_false_iff in E as [E1 E2].
    simpl String.append. rewrite replace_ne_cons, (IH E2).
    destruct (String.prefix (String x old')
                (String c (a +:+ String x (old' +:+ b)))) eqn:E3; [|reflexivity].
    apply prefix_cons in E3 as [<- E3].
    apply prefix_app_sep in E3; [|exact Hx].
    apply contains_here in E3. congruence.
Qed.

(** X3: an address without [&type=damage-done] is left as it is: when the
    browser does not show the damage address, [to_healing_done] opens the
    address it shows once more. *)
Theorem healing_url_absent (dd_url : string) :
  Py.contains "&type=damage-done" dd_url = false →
  Scraping.healing_url dd_url = dd_url.
Proof. apply replace_ne_absent. Qed.

Lemma healing_url_absent_witness :
  Scraping.healing_url "https://www.fflogs.com/reports/a1B2#boss=-2"
  = "https://www.fflogs.com/reports/a1B2#boss=-2".
Proof.
  apply (healing_url_absent "https://www.fflogs.com/reports/a1B2#boss=-2").
  reflexivity.
Defined.

(** X4: the substitution reaches a fixed point at once: the healing
    address of a healing address is that address. *)
Theorem healing_url_idempotent (dd_url : string) :
  Scraping.healing_url (Scraping.healing_url dd_url) = Scraping.healing_url dd_url.
Proof.
  apply healing_url_absent. unfold Scraping.healing_url, Py.replace.
  apply (replace_leaves_no_old "&"); [reflexivity|]. intros t. reflexivity.
Qed.

(** X5: what the site has added behind the damage parameter stays behind
    the healing parameter: only the parameter is exchanged, in place. *)
Theorem healing_url_in_place (sum_url extra : string) :
  Py.contains "type=damage-done" sum_url = false →
  Py.contains "&type=damage-done" extra = false →
  Scraping.healing_url (Scraping.damage_url sum_url +:+ extra)
  = sum_url +:+ "&type=healing" +:+ extra.
Proof.
  intros Ea Eb. unfold Scraping.healing_url, Scraping.damage_url, Py.replace.
  rewrite append_assoc.
  change (sum_url +:+ "&type=damage-done" +:+ extra)
    with (sum_url +:+ String "&" ("type=damage-done" +:+ extra)).
  rewrite (replace_ne_first "&" "type=damage-done" "type=healing");
    [|reflexivity|exact Ea].
  rewrite (replace_ne_absent _ _ extra Eb). reflexivity.
Qed.

Lemma healing_url_in_place_witness :
  Scraping.healing_url (Scraping.damage_url "r/a1B2#boss=-2&wipes=2" +:+ "&sortby=dps")
  = "r/a1B2#boss=-2&wipes=2&type=healing&sortby=dps".
Proof.
  apply (healing_url_in_place "r/a1B2#boss=-2&wipes=2" "&sortby=dps"); reflexivity.
Defined.

(** ** What a batch leaves of the object *)

Section invariants.
Context {Σ : Type}.

Lemma keeps_ret {A} I (a : A) : keeps I (@ret Σ A a).
Proof. intros σ Hσ. exact Hσ. Qed.

Lemma keeps_gets {A} I (f : Σ → A) : keeps I (gets f).
Proof. intros σ Hσ. exact Hσ. Qed.

Lemma keeps_issue I c : keeps I (@issue Σ c).
Proof. intros σ Hσ. exact Hσ. Qed.

Lemma keeps_bind {A B} I (m : M Σ A) (f : A → M Σ B) :
  keeps I m → (∀ a, keeps I (f a)) → keeps I (bind m f).
Proof.
  intros Hm Hf σ Hσ. rewrite run_bind. specialize (Hm σ Hσ).
  destruct (m σ) as [[[e|a] σ1] j1]; [exact Hm|].
  specialize (Hf a σ1 Hm). destruct (f a σ1) as [[r σ2] j2]. exact Hf.
Qed.

Lemma keeps_if {A} I (b : bool) (m1 m2 : M Σ A) :
  keeps I m1 → keeps I m2 → keeps I (if b then m1 else m2).
Proof. destruct b; auto. Qed.

End invariants.

Section reference.
Context {W : Type} `{Browser W}.
Variable find_all_str : string → string → string.

Lemma keeps_on_driver (I : Scraping.obj W → Prop) op : driver_blind I → keeps I (Scraping.on_driver op).
Proof.
  intros HI self Hs. unfold Scraping.on_driver.
  destruct (op (Scraping.driver self)); [exact Hs|apply HI, Hs].
Qed.

Lemma keeps_ask_driver {A} I (q : W → exn + A) : keeps I (Scraping.ask_driver q).
Proof.
  intros self Hs. unfold Scraping.ask_driver.
  destruct (q (Scraping.driver self)); exact Hs.
Qed.

Lemma keeps_sleep (I : Scraping.obj W → Prop) ms : driver_blind I → keeps I (Scraping.sleep ms).
Proof.
  intros HI. unfold Scraping.sleep. apply keeps_bind; [apply keeps_issue|].
  intros _ self Hs. apply HI, Hs.
Qed.

Ltac keeps_step HI :=
  lazymatch goal with
  | |- keeps _ (bind _ _) => apply keeps_bind; [|intros ?]
  | |- keeps _ (ret _) => apply keeps_ret
  | |- keeps _ (gets _) => apply keeps_gets
  | |- keeps _ (issue _) => apply keeps_issue
  | |- keeps _ (Scraping.on_driver _) => apply keeps_on_driver, HI
  | |- keeps _ (Scraping.ask_driver _) => apply keeps_ask_driver
  | |- keeps _ (Scraping.sleep _) => apply keeps_sleep, HI
  | |- keeps _ (if _ then _ else _) => apply keeps_if
  end.

(** The loop keeps what [check_comp] keeps and the driver does not touch. *)
Lemma loop_keeps (I : Scraping.obj W → Prop) max counter ls :
  driver_blind I → (∀ comp_html, keeps I (Scraping.check_comp comp_html)) →
  keeps I (Scraping.loop find_all_str max counter ls).
Proof.
  intros HI Hcheck. revert counter.
  induction ls as [|log rest IH]; intros counter; simpl.
  - apply keeps_ret.
  - unfold Scraping.to_summary, Scraping.get_comp,
      Scraping.to_damage_dealt, Scraping.get_damage_dealt,
      Scraping.to_healing_done, Scraping.get_healing_done,
      Scraping.current_url, Scraping.page_source,
      Scraping.driver_get, Scraping.wait_until, Scraping.send_enter.
    repeat first [apply Hcheck | apply IH | keeps_step HI].
Qed.

Lemma parse_logs_keeps (I : Scraping.obj W → Prop) :
  driver_blind I → (∀ comp_html, keeps I (Scraping.check_comp comp_html)) →
  keeps I (Scraping.parse_logs find_all_str).
Proof.
  intros HI Hcheck. unfold Scraping.parse_logs, Scraping.quit.
  repeat first [apply loop_keeps; assumption | keeps_step HI].
Qed.

(** X6: whatever a batch does and however it ends, it leaves the list of
    logs and the encounter type of the object as they were, and a reference
    composition that was set holds the same tokens, the same number of
    times, afterwards. *)
Theorem parse_logs_frame (self : Scraping.obj W) :
  let self' := final (Scraping.parse_logs find_all_str self) in
  Scraping.logs self' = Scraping.logs self
  ∧ Scraping.enc_type self' = Scraping.enc_type self
  ∧ (Scraping.comp self ≠ [] → Scraping.comp self' ≡ₚ Scraping.comp self).
Proof.
  intros self'. subst self'. split; [|split].
  - apply (parse_logs_keeps (λ σ, Scraping.logs σ = Scraping.logs self));
      [intros w σ E; exact E| |reflexivity].
    intros comp_html σ E. rewrite check_comp_run. destruct (_ && _); exact E.
  - apply (parse_logs_keeps (λ σ, Scraping.enc_type σ = Scraping.enc_type self));
      [intros w σ E; exact E| |reflexivity].
    intros comp_html σ E. rewrite check_comp_run. destruct (_ && _); exact E.
  - intros Hset.
    apply (parse_logs_keeps (λ σ, Scraping.comp σ ≡ₚ Scraping.comp self));
      [intros w σ E; exact E| |reflexivity].
    intros comp_html σ E. rewrite check_comp_run.
    destruct (bool_decide (0 < length (Scraping.comp σ))) eqn:Hlen.
    + destruct (bool_decide (Py.sorted (Scraping.comp σ)
                             ≠ Py.sorted (Scraping.tokens comp_html))) eqn:Hs;
        [exact E|].
      apply bool_decide_eq_false in Hs. apply dec_stable in Hs.
      unfold final. simpl. rewrite <- E. symmetry. apply sorted_eq_iff, Hs.
    + apply bool_decide_eq_false in Hlen.
      destruct (Scraping.comp σ) as [|t old] eqn:Eσ; [|simpl in Hlen; lia].
      symmetry in E. apply Permutation_nil_r in E. congruence.
Qed.

End reference.

(** The reference is Scholar, Paladin; the first log lists Paladin, Scholar,
    the second is left out, the third never loads. *)
Lemma parse_logs_frame_witness :
  let self := demo_obj ["a/1"; "b/2"; "x/3"] ["Paladin"; "Scholar"] "kills" in
  let r := Scraping.parse_logs demo_find_all self in
  (outcome r = inl TimeoutException
   ∧ Scraping.comp (final r) = ["Scholar"; "Paladin"])
  ∧ Scraping.comp (final r) ≡ₚ Scraping.comp self.
Proof.
  intros self r. split; [vm_compute; split; reflexivity|].
  apply (parse_logs_frame demo_find_all self). discriminate.
Defined.

(** ** The turns of the loop *)

Lemma navigations_cons c j :
  navigations (c :: j) = (if is_get c then 1 else 0) + navigations j.
Proof.
  unfold navigations. rewrite filter_cons.
  destruct (is_get c); reflexivity.
Qed.

Lemma exports_cons c j :
  exports (c :: j) = (if is_export c then 1 else 0) + exports j.
Proof.
  unfold exports. rewrite filter_cons.
  destruct (is_export c); reflexivity.
Qed.

Lemma navigations_app j1 j2 : navigations (j1 ++ j2) = navigations j1 + navigations j2.
Proof. unfold navigations. rewrite filter_app, length_app. reflexivity. Qed.

Lemma exports_app j1 j2 : exports (j1 ++ j2) = exports j1 + exports j2.
Proof. unfold exports. rewrite filter_app, length_app. reflexivity. Qed.

Lemma navigations_nil : navigations [] = 0.
Proof. reflexivity. Qed.

Lemma exports_nil : exports [] = 0.
Proof. reflexivity. Qed.

Lemma prepend_outcome {Σ A} j (r : (exn + A) * Σ * list call) :
  outcome (prepend j r) = outcome r.
Proof. destruct r as [[o σ] j']. reflexivity. Qed.

Lemma prepend_journal {Σ A} j (r : (exn + A) * Σ * list call) :
  journal (prepend j r) = j ++ journal r.
Proof. destruct r as [[o σ] j']. reflexivity. Qed.

Lemma prepend_final {Σ A} j (r : (exn + A) * Σ * list call) :
  final (prepend j r) = final r.
Proof. destruct r as [[o σ] j']. reflexivity. Qed.


Ltac count_calls :=
  unfold outcome, journal, final; cbn [fst snd app];
  rewrite ?navigations_cons, ?exports_cons, ?navigations_nil, ?exports_nil;
  simpl; try reflexivity; try lia.

Section turns.
Context {W : Type} `{Browser W}.
Variable find_all_str : string → string → string.

Lemma to_damage_dealt_full (σ : Scraping.obj W) :
  Scraping.to_damage_dealt σ =
  match drv_current_url (Scraping.driver σ) with
  | inl e => (inl e, σ, [CurrentUrl])
  | inr u =>
      match drv_get (Scraping.damage_url u) (Scraping.driver σ) with
      | inl e => (inl e, σ, [CurrentUrl; Get (Scraping.damage_url u)])
      | inr w => (inr (), Scraping.set_driver w σ, [CurrentUrl; Get (Scraping.damage_url u)])
      end
  end.
Proof.
  unfold Scraping.to_damage_dealt, Scraping.current_url, Scraping.driver_get,
    Scraping.on_driver, Scraping.ask_driver, bind, gets, issue.
  simpl. destruct (drv_current_url _); [reflexivity|].
  simpl. destruct (drv_get _ _); reflexivity.
Qed.

Lemma to_healing_done_full (σ : Scraping.obj W) :
  Scraping.to_healing_done σ =
  match drv_current_url (Scraping.driver σ) with
  | inl e => (inl e, σ, [CurrentUrl])
  | inr u =>
      match drv_get (Scraping.healing_url u) (Scraping.driver σ) with
      | inl e => (inl e, σ, [CurrentUrl; Get (Scraping.healing_url u)])
      | inr w => (inr (), Scraping.set_driver w σ, [CurrentUrl; Get (Scraping.healing_url u)])
      end
  end.
Proof.
  unfold Scraping.to_healing_done, Scraping.current_url, Scraping.driver_get,
    Scraping.on_driver, Scraping.ask_driver, bind, gets, issue.
  simpl. destruct (drv_current_url _); [reflexivity|].
  simpl. destruct (drv_get _ _); reflexivity.
Qed.

Lemma get_damage_dealt_full (σ : Scraping.obj W) :
  Scraping.get_damage_dealt σ =
  match drv_wait CLASS_NAME "buttons-csv" 10 (Scraping.driver σ) with
  | inl e => (inl e, σ, [WaitUntil CLASS_NAME "buttons-csv" 10])
  | inr w =>
      match drv_send_keys CLASS_NAME "buttons-csv" w with
      | inl e => (inl e, Scraping.set_driver w σ,
                  [WaitUntil CLASS_NAME "buttons-csv" 10; SendEnter CLASS_NAME "buttons-csv"])
      | inr w' => (inr (), Scraping.set_driver w' σ,
                   [WaitUntil CLASS_NAME "buttons-csv" 10; SendEnter CLASS_NAME "buttons-csv"])
      end
  end.
Proof.
  unfold Scraping.get_damage_dealt, Scraping.wait_until, Scraping.send_enter,
    Scraping.on_driver, bind, issue.
  simpl. destruct (drv_wait _ _ _ _) as [e|w]; [reflexivity|].
  simpl. destruct (drv_send_keys _ _ w); reflexivity.
Qed.

Lemma get_healing_done_full (σ : Scraping.obj W) :
  Scraping.get_healing_done σ =
  match drv_wait CLASS_NAME "buttons-csv" 10 (elapse 500 (Scraping.driver σ)) with
  | inl e => (inl e, Scraping.set_driver (elapse 500 (Scraping.driver σ)) σ,
              [Sleep 500; WaitUntil CLASS_NAME "buttons-csv" 10])
  | inr w =>
      match drv_send_keys CLASS_NAME "buttons-csv" w with
      | inl e => (inl e, Scraping.set_driver w σ,
                  [Sleep 500; WaitUntil CLASS_NAME "buttons-csv" 10;
                   SendEnter CLASS_NAME "buttons-csv"])
      | inr w' => (inr (), Scraping.set_driver w' σ,
                   [Sleep 500; WaitUntil CLASS_NAME "buttons-csv" 10;
                    SendEnter CLASS_NAME "buttons-csv"])
      end
  end.
Proof.
  unfold Scraping.get_healing_done, Scraping.sleep, Scraping.wait_until,
    Scraping.send_enter, Scraping.on_driver, bind, issue, modify.
  simpl. destruct (drv_wait _ _ _ _) as [e|w]; [reflexivity|].
  simpl. destruct (drv_send_keys _ _ w); reflexivity.
Qed.

Ltac aborted Habort :=
  apply Habort; count_calls.

(** The three ways a turn of the loop can go. *)
Lemma turn_elim max c log rest (σ : Scraping.obj W)
    (K : (exn + ()) * Scraping.obj W * list call → Prop) :
  let url := Scraping.summary_url (Scraping.enc_type σ) log in
  (∀ e σ' j, printed j = [Beginning c max] → navigations j ≤ 3 → exports j ≤ 2 →
             K (inl e, σ', j)) →
  (∀ σ', Scraping.comp σ ≠ [] → Scraping.comp σ' = Scraping.comp σ →
         K (prepend (turn_left_out c max url)
              (Scraping.loop find_all_str max c rest σ'))) →
  (∀ σ' sum_url dd_url,
         K (prepend (turn_finished c max url sum_url dd_url)
              (Scraping.loop find_all_str max (c + 1) rest σ'))) →
  K (Scraping.loop find_all_str max c (log :: rest) σ).
Proof.
  intros url Habort Hskip Hdone. subst url.
  simpl Scraping.loop.
  rewrite run_bind. simpl.
  rewrite run_bind, to_summary_run. cbv zeta.
  destruct (drv_get _ (Scraping.driver σ)) as [e|w1]; [aborted Habort|].
  rewrite run_bind, get_comp_run. cbv zeta. simpl Scraping.driver.
  destruct (drv_wait XPATH "//table[@class='composition-table']" 10 w1) as [e|w2];
    [aborted Habort|].
  destruct (drv_page_source w2) as [e|page]; [aborted Habort|].
  rewrite run_bind, check_comp_run. simpl Scraping.comp.
  destruct (bool_decide (0 < length (Scraping.comp σ))
            && bool_decide (Py.sorted (Scraping.comp σ)
                            ≠ Py.sorted (Scraping.tokens (find_all_str "composition-entry" page))))
    eqn:Hmis.
  - unfold negb. cbv iota. rewrite run_bind. simpl.
    match goal with |- K ?t =>
      replace t with (prepend (turn_left_out c max
                                 (Scraping.summary_url (Scraping.enc_type σ) log))
                        (Scraping.loop find_all_str max c rest
                           (Scraping.set_driver w2 (Scraping.set_driver w1 σ))))
    end.
    + apply Hskip; [|reflexivity].
      apply andb_true_iff in Hmis as [Hlen _]. apply bool_decide_eq_true in Hlen.
      destruct (Scraping.comp σ); [simpl in Hlen; lia|discriminate].
    + unfold prepend. destruct (Scraping.loop _ _ _ _ _) as [[o σ2] j2]. reflexivity.
  - unfold negb. cbv iota.
    rewrite run_bind, to_damage_dealt_full. simpl Scraping.driver.
    destruct (drv_current_url w2) as [e|sum_url]; [aborted Habort|].
    destruct (drv_get (Scraping.damage_url sum_url) w2) as [e|w3]; [aborted Habort|].
    rewrite run_bind, get_damage_dealt_full. simpl Scraping.driver.
    destruct (drv_wait CLASS_NAME "buttons-csv" 10 w3) as [e|w4]; [aborted Habort|].
    destruct (drv_send_keys CLASS_NAME "buttons-csv" w4) as [e|w5]; [aborted Habort|].
    rewrite run_bind, to_healing_done_full. simpl Scraping.driver.
    destruct (drv_current_url w5) as [e|dd_url]; [aborted Habort|].
    destruct (drv_get (Scraping.healing_url dd_url) w5) as [e|w6]; [aborted Habort|].
    rewrite run_bind, get_healing_done_full. simpl Scraping.driver.
    destruct (drv_wait CLASS_NAME "buttons-csv" 10 (elapse 500 w6)) as [e|w7];
      [aborted Habort|].
    destruct (drv_send_keys CLASS_NAME "buttons-csv" w7) as [e|w8]; [aborted Habort|].
    rewrite run_bind. simpl.
    match goal with |- K ?t =>
      match t with context [Scraping.loop find_all_str max (c + 1) rest ?s] =>
        replace t with (prepend (turn_finished c max
                                   (Scraping.summary_url (Scraping.enc_type σ) log)
                                   sum_url dd_url)
                          (Scraping.loop find_all_str max (c + 1) rest s))
      end
    end.
    + apply Hdone.
    + unfold prepend. destruct (Scraping.loop _ _ _ _ _) as [[o σ2] j2]. reflexivity.
Qed.

Lemma turn_left_out_tally c max url :
  printed (turn_left_out c max url) = [Beginning c max; LeftOut]
  ∧ navigations (turn_left_out c max url) = 1
  ∧ exports (turn_left_out c max url) = 0.
Proof. repeat split. Qed.

Lemma turn_finished_tally c max url sum_url dd_url :
  printed (turn_finished c max url sum_url dd_url) = [Beginning c max; Finished c max]
  ∧ navigations (turn_finished c max url sum_url dd_url) = 3
  ∧ exports (turn_finished c max url sum_url dd_url) = 2.
Proof. repeat split. Qed.

Lemma loop_tally max c ls (σ : Scraping.obj W) :
  tally (length ls) (Scraping.loop find_all_str max c ls σ).
Proof.
  revert c σ. induction ls as [|log rest IH]; intros c σ.
  - unfold tally, journal, outcome. simpl.
    rewrite navigations_nil, exports_nil. lia.
  - apply turn_elim.
    + intros e σ' j Hp Hn He. unfold tally, journal, outcome.
      cbn [fst snd]. rewrite Hp. simpl. lia.
    + intros σ' _ _. specialize (IH c σ'). unfold tally in *.
      destruct (turn_left_out_tally c max (Scraping.summary_url (Scraping.enc_type σ) log))
        as (Ep & En & Ee).
      rewrite prepend_outcome, prepend_journal, printed_app, navigations_app,
        exports_app, Ep, En, Ee, begun_app, finished_app, skipped_app.
      simpl length. simpl begun. simpl finished. simpl skipped.
      destruct (outcome _); lia.
    + intros σ' sum_url dd_url. specialize (IH (c + 1) σ'). unfold tally in *.
      destruct (turn_finished_tally c max
                  (Scraping.summary_url (Scraping.enc_type σ) log) sum_url dd_url)
        as (Ep & En & Ee).
      rewrite prepend_outcome, prepend_journal, printed_app, navigations_app,
        exports_app, Ep, En, Ee, begun_app, finished_app, skipped_app.
      simpl length. simpl begun. simpl finished. simpl skipped.
      destruct (outcome _); lia.
Qed.

End turns.

(** ** The account of a batch *)

Section batch.
Context {W : Type} `{Browser W}.
Variable find_all_str : string → string → string.

(** The half second and the quit at the end add no progress line, no
    navigation and no export, and [parse_logs] returns only when its loop
    has returned. *)
Lemma parse_logs_account (self : Scraping.obj W) :
  let turns := Scraping.loop find_all_str (length (Scraping.logs self)) 1
                 (Scraping.logs self) self in
  let r := Scraping.parse_logs find_all_str self in
  printed (journal r) = printed (journal turns)
  ∧ exports (journal r) = exports (journal turns)
  ∧ navigations (journal r) = navigations (journal turns)
  ∧ (∀ v, outcome r = inr v → outcome turns = inr ()).
Proof.
  intros turns r. subst turns r. unfold Scraping.parse_logs.
  rewrite run_bind. simpl. rewrite run_bind.
  destruct (Scraping.loop _ _ _ _ self) as [[[e|[]] self1] j1].
  - repeat split. intros v [=].
  - pose proof (wind_down_journal self1) as Hend.
    destruct ((Scraping.sleep 500;; Scraping.quit) self1) as [[r2 σ2] j2].
    unfold journal, outcome in *. simpl in *. subst j2.
    rewrite printed_app, exports_app, navigations_app. simpl.
    rewrite app_nil_r.
    change (exports [Sleep 500; Quit]) with 0.
    change (navigations [Sleep 500; Quit]) with 0.
    repeat split; lia.
Qed.

(** X7: a batch that returns has announced every log of the list once and
    has finished or left out each of them; it has triggered two exports and
    opened three pages for every log it finished, and opened one page for
    every log it left out. *)
Theorem returned_batch_tally (self : Scraping.obj W) (v : ()) :
  let r := Scraping.parse_logs find_all_str self in
  let p := printed (journal r) in
  let n := length (Scraping.logs self) in
  outcome r = inr v →
  begun p = n
  ∧ finished p + skipped p = n
  ∧ exports (journal r) = 2 * finished p
  ∧ navigations (journal r) = 3 * finished p + skipped p.
Proof.
  intros r p n Hret. subst r p n.
  destruct (parse_logs_account self) as (Ep & Ee & En & Hout).
  pose proof (loop_tally find_all_str (length (Scraping.logs self)) 1
                (Scraping.logs self) self) as T.
  unfold tally in T. rewrite (Hout v Hret) in T.
  rewrite Ep, Ee, En. lia.
Qed.

(** X8: however a batch ends, it announces no more logs than the list
    has, opens at most three pages and triggers at most two exports for
    each log of the list, and at most one announced log is neither
    finished nor left out. *)
Theorem batch_bounds (self : Scraping.obj W) :
  let r := Scraping.parse_logs find_all_str self in
  let p := printed (journal r) in
  let n := length (Scraping.logs self) in
  begun p ≤ n
  ∧ finished p + skipped p ≤ begun p ≤ finished p + skipped p + 1
  ∧ exports (journal r) ≤ 2 * n
  ∧ navigations (journal r) ≤ 3 * n.
Proof.
  intros r p n. subst r p n.
  destruct (parse_logs_account self) as (Ep & Ee & En & _).
  pose proof (loop_tally find_all_str (length (Scraping.logs self)) 1
                (Scraping.logs self) self) as T.
  unfold tally in T. rewrite Ep, Ee, En.
  destruct (outcome _); lia.
Qed.

(** X9: the index of an announcement is at least one and at most the total
    printed beside it, which is the number of logs of the list. *)
Theorem announced_index_in_range (self : Scraping.obj W) pre c m post :
  printed (journal (Scraping.parse_logs find_all_str self))
  = pre ++ Beginning c m :: post →
  1 ≤ c ≤ m ∧ m = length (Scraping.logs self).
Proof.
  rewrite parse_logs_printed. intros E.
  pose proof (loop_progress find_all_str (length (Scraping.logs self)) 1
                (Scraping.logs self) self) as P.
  destruct (progress_index _ _ _ P _ _ _ _ E) as (E1 & E2 & E3).
  pose proof (loop_tally find_all_str (length (Scraping.logs self)) 1
                (Scraping.logs self) self) as (Hb & _).
  rewrite E, begun_app in Hb. simpl in Hb. lia.
Qed.

(** X10: while no reference is set a log is never left out: the first
    progress line of a batch whose object has no reference is not followed
    by the line of a log left out. *)
Theorem first_log_is_not_left_out (self : Scraping.obj W) c m post :
  Scraping.comp self = [] →
  printed (journal (Scraping.parse_logs find_all_str self))
  ≠ Beginning c m :: LeftOut :: post.
Proof.
  intros Hunset. rewrite parse_logs_printed.
  destruct (Scraping.logs self) as [|log rest]; [discriminate|].
  apply turn_elim.
  - intros e σ' j Hp _ _. unfold journal. simpl. rewrite Hp. discriminate.
  - intros σ' Hset _. destruct (Hset Hunset).
  - intros σ' sum_url dd_url. rewrite prepend_journal, printed_app.
    discriminate.
Qed.

End batch.

Lemma returned_batch_tally_witness :
  let r := Scraping.parse_logs demo_find_all (demo_obj ["a/1"; "b/2"; "a/3"] [] "all") in
  let p := printed (journal r) in
  (finished p = 2 ∧ skipped p = 1)
  ∧ begun p = 3
  ∧ finished p + skipped p = 3
  ∧ exports (journal r) = 2 * finished p
  ∧ navigations (journal r) = 3 * finished p + skipped p.
Proof.
  intros r p. split; [vm_compute; split; reflexivity|].
  apply (returned_batch_tally demo_find_all (demo_obj ["a/1"; "b/2"; "a/3"] [] "all") ()).
  vm_compute. reflexivity.
Defined.

Lemma announced_index_in_range_witness :
  let self := demo_obj ["a/1"; "b/2"; "a/3"] [] "all" in
  1 ≤ 2 ≤ 3 ∧ 3 = length (Scraping.logs self).
Proof.
  intros self.
  apply (announced_index_in_range demo_find_all self
           [Beginning 1 3; Finished 1 3; Beginning 2 3; LeftOut] 2 3 [Finished 2 3]).
  vm_compute. reflexivity.
Defined.

Lemma first_log_is_not_left_out_witness :
  printed (journal (Scraping.parse_logs demo_find_all (demo_obj ["b/1"; "a/2"] [] "all")))
  ≠ Beginning 1 2 :: LeftOut :: [Beginning 1 2; Finished 1 2].
Proof.
  apply (first_log_is_not_left_out demo_find_all (demo_obj ["b/1"; "a/2"] [] "all")).
  reflexivity.
Defined.

Section accepted.
Context {W : Type} `{Browser W}.
Variable find_all_str : string → string → string.

(** X11: a log whose pages all load and whose composition is accepted
    (no reference yet, or the same tokens as the reference) is exported in
    full: after the summary, the damage address is made from the address
    the browser shows and its csv button is pressed, then the healing
    address is made from the address the browser shows then and, half a
    second later, its csv button is pressed; the observed tokens become the
    reference, the "finished" line is printed and the loop goes on with the
    counter advanced by one. *)
Theorem accepted_log_is_exported max counter log rest (self : Scraping.obj W)
    w1 w2 page sum_url w3 w4 w5 dd_url w6 w7 w8 :
  let url := Scraping.summary_url (Scraping.enc_type self) log in
  let table := "//table[@class='composition-table']" in
  let observed := Scraping.tokens (find_all_str "composition-entry" page) in
  drv_get url (Scraping.driver self) = inr w1 →
  drv_wait XPATH table 10 w1 = inr w2 →
  drv_page_source w2 = inr page →
  Scraping.comp self = [] ∨ Py.sorted (Scraping.comp self) = Py.sorted observed →
  drv_current_url w2 = inr sum_url →
  drv_get (Scraping.damage_url sum_url) w2 = inr w3 →
  drv_wait CLASS_NAME "buttons-csv" 10 w3 = inr w4 →
  drv_send_keys CLASS_NAME "buttons-csv" w4 = inr w5 →
  drv_current_url w5 = inr dd_url →
  drv_get (Scraping.healing_url dd_url) w5 = inr w6 →
  drv_wait CLASS_NAME "buttons-csv" 10 (elapse 500 w6) = inr w7 →
  drv_send_keys CLASS_NAME "buttons-csv" w7 = inr w8 →
  Scraping.loop find_all_str max counter (log :: rest) self
  = prepend (turn_finished counter max url sum_url dd_url)
      (Scraping.loop find_all_str max (counter + 1) rest
         (Scraping.Obj (Scraping.logs self) observed (Scraping.enc_type self) w8)).
Proof.
  intros url table observed Hget Hwait Hpage Hacc Hsum Hdd Hw1 Hk1 Hcur Hhd Hw2 Hk2.
  subst url table.
  simpl Scraping.loop. rewrite run_bind. simpl.
  rewrite run_bind, to_summary_run. cbv zeta. rewrite Hget.
  rewrite run_bind, get_comp_run. cbv zeta. simpl Scraping.driver.
  rewrite Hwait, Hpage.
  rewrite run_bind, check_comp_run. simpl Scraping.comp. fold observed.
  assert (bool_decide (0 < length (Scraping.comp self))
          && bool_decide (Py.sorted (Scraping.comp self) ≠ Py.sorted observed) = false)
    as ->.
  { destruct Hacc as [->|Heq]; [reflexivity|].
    rewrite (bool_decide_false (_ ≠ _)) by (intros Hn; exact (Hn Heq)).
    apply andb_false_r. }
  unfold negb. cbv iota.
  rewrite run_bind, to_damage_dealt_full. simpl Scraping.driver. rewrite Hsum, Hdd.
  rewrite run_bind, get_damage_dealt_full. simpl Scraping.driver. rewrite Hw1, Hk1.
  rewrite run_bind, to_healing_done_full. simpl Scraping.driver. rewrite Hcur, Hhd.
  rewrite run_bind, get_healing_done_full. simpl Scraping.driver. rewrite Hw2, Hk2.
  rewrite run_bind. simpl. unfold prepend.
  destruct (Scraping.loop _ _ _ _ _) as [[o σ2] j2]. reflexivity.
Qed.

End accepted.

(** The first log of a batch on the site that keeps every address. *)
Lemma accepted_log_is_exported_witness :
  let self := demo_obj ["a/1"] [] "kills" in
  let url := "a/1#boss=-2&wipes=2" in
  let dd_url := "a/1#boss=-2&wipes=2&type=damage-done" in
  let hd_url := "a/1#boss=-2&wipes=2&type=healing" in
  (Scraping.summary_url (Scraping.enc_type self) "a/1" = url
   ∧ Scraping.damage_url url = dd_url ∧ Scraping.healing_url dd_url = hd_url)
  ∧ Scraping.loop demo_find_all 1 1 ("a/1" :: []) self
    = prepend (turn_finished 1 1 (Scraping.summary_url (Scraping.enc_type self) "a/1")
                 url dd_url)
        (Scraping.loop demo_find_all 1 (1 + 1) []
           (Scraping.Obj (Scraping.logs self)
              (Scraping.tokens (demo_find_all "composition-entry" (demo_page url)))
              (Scraping.enc_type self) hd_url)).
Proof.
  intros self url dd_url hd_url. split; [repeat split|].
  apply (accepted_log_is_exported demo_find_all 1 1 "a/1" [] self
           url url (demo_page url) url dd_url dd_url dd_url dd_url hd_url hd_url hd_url);
    try reflexivity.
  left. reflexivity.
Defined.

(** ** Where exceptions come from *)

Section exceptions.
Context {Σ : Type}.

Lemma throws_ret {A} P (a : A) : throws P (@ret Σ A a).
Proof. intros σ e [=]. Qed.

Lemma throws_gets {A} P (f : Σ → A) : throws P (gets f).
Proof. intros σ e [=]. Qed.

Lemma throws_modify P (f : Σ → Σ) : throws P (modify f).
Proof. intros σ e [=]. Qed.

Lemma throws_issue P c : throws P (@issue Σ c).
Proof. intros σ e [=]. Qed.

Lemma throws_bind {A B} P (m : M Σ A) (f : A → M Σ B) :
  throws P m → (∀ a, throws P (f a)) → throws P (bind m f).
Proof.
  intros Hm Hf σ e. rewrite run_bind. specialize (Hm σ).
  destruct (m σ) as [[[e1|a] σ1] j1].
  - intros [= <-]. apply Hm. reflexivity.
  - specialize (Hf a σ1 e). destruct (f a σ1) as [[r σ2] j2]. exact Hf.
Qed.

Lemma throws_if {A} P (b : bool) (m1 m2 : M Σ A) :
  throws P m1 → throws P m2 → throws P (if b then m1 else m2).
Proof. destruct b; auto. Qed.

End exceptions.

Section driver_exceptions.
Context {W : Type} `{Browser W}.
Variable find_all_str : string → string → string.

Lemma throws_on_driver P (op : W → exn + W) :
  (∀ w e, op w = inl e → P e) → throws P (Scraping.on_driver op).
Proof.
  intros Hop self e. unfold Scraping.on_driver, outcome.
  destruct (op (Scraping.driver self)) as [e1|w] eqn:E; simpl; [|discriminate].
  intros [= <-]. exact (Hop _ _ E).
Qed.

Lemma throws_ask_driver {A} P (q : W → exn + A) :
  (∀ w e, q w = inl e → P e) → throws P (Scraping.ask_driver q).
Proof.
  intros Hq self e. unfold Scraping.ask_driver, outcome.
  destruct (q (Scraping.driver self)) as [e1|a] eqn:E; simpl; [|discriminate].
  intros [= <-]. exact (Hq _ _ E).
Qed.

Ltac throws_step :=
  lazymatch goal with
  | |- throws _ (bind _ _) => apply throws_bind; [|intros ?]
  | |- throws _ (ret _) => apply throws_ret
  | |- throws _ (gets _) => apply throws_gets
  | |- throws _ (modify _) => apply throws_modify
  | |- throws _ (issue _) => apply throws_issue
  | |- throws _ (Scraping.on_driver _) => apply throws_on_driver
  | |- throws _ (Scraping.ask_driver _) => apply throws_ask_driver
  | |- throws _ (if _ then _ else _) => apply throws_if
  end.

Ltac throws_methods :=
  unfold Scraping.to_summary, Scraping.get_comp, Scraping.check_comp,
    Scraping.to_damage_dealt, Scraping.get_damage_dealt,
    Scraping.to_healing_done, Scraping.get_healing_done,
    Scraping.sleep, Scraping.quit, Scraping.current_url, Scraping.page_source,
    Scraping.driver_get, Scraping.wait_until, Scraping.send_enter;
  repeat throws_step.

Lemma loop_throws P max counter ls :
  driver_raises P → throws P (Scraping.loop find_all_str max counter ls).
Proof.
  intros (Hget & Hcur & Hsrc & Hwait & Hkeys & Hquit). revert counter.
  induction ls as [|log rest IH]; intros counter; simpl.
  - apply throws_ret.
  - throws_methods; eauto.
Qed.

(** X12: [parse_logs] raises nothing of its own: an exception that leaves
    it was raised by the driver, in opening a page, reading the address or
    the page, waiting for an element, pressing a key or quitting.  A
    composition that does not match is not among them. *)
Theorem parse_logs_raises_driver_errors (P : exn → Prop) (self : Scraping.obj W) e :
  driver_raises P →
  outcome (Scraping.parse_logs find_all_str self) = inl e → P e.
Proof.
  intros HP.
  assert (throws P (Scraping.parse_logs find_all_str)) as Ht; [|exact (Ht self e)].
  pose proof HP as (Hget & Hcur & Hsrc & Hwait & Hkeys & Hquit).
  unfold Scraping.parse_logs. throws_methods; eauto.
  exact (loop_throws P _ _ _ HP).
Qed.

End driver_exceptions.

(** On the demonstration site a wait may time out; nothing raises an
    [AttributeError]. *)
Lemma parse_logs_raises_driver_errors_witness :
  outcome (Scraping.parse_logs demo_find_all (demo_obj ["b/1"; "x/2"] ["Scholar"] "all"))
  = inl TimeoutException
  ∧ ∀ msg, TimeoutException ≠ AttributeError msg.
Proof.
  assert (outcome (Scraping.parse_logs demo_find_all
                     (demo_obj ["b/1"; "x/2"] ["Scholar"] "all"))
          = inl TimeoutException) as E by (vm_compute; reflexivity).
  split; [exact E|].
  apply (parse_logs_raises_driver_errors demo_find_all
           (λ e, ∀ msg, e ≠ AttributeError msg)
           (demo_obj ["b/1"; "x/2"] ["Scholar"] "all") TimeoutException); [|exact E].
  unfold driver_raises. simpl. repeat split; try discriminate.
  intros _ _ _ w e. destruct (String.prefix "x" w); [|discriminate].
  intros [= <-]. discriminate.
Defined.

(** ** Building the object: what is deleted and what is built *)

Lemma clear_keeps_held names h :
  held (final (for_each Scraping.os_unlink names h)) = held h.
Proof.
  revert h. induction names as [|x names IH]; intros h; [reflexivity|].
  simpl. rewrite run_bind, os_unlink_run.
  destruct (decide (x ∈ held h)); [reflexivity|].
  specialize (IH {| csv := csv h ∖ {[x]}; held := held h |}).
  destruct (for_each Scraping.os_unlink names _) as [[r h1] j1]. exact IH.
Qed.

(** A name that is held stays in the directory, and stops the clearing
    when its turn comes. *)
Lemma clear_stops_at_held names h g :
  g ∈ csv h → g ∈ held h →
  let r := for_each Scraping.os_unlink names h in
  g ∈ csv (final r) ∧ csv (final r) ⊆ csv h
  ∧ (g ∈ names → outcome r = inl OSError).
Proof.
  revert h. induction names as [|x names IH]; intros h Hg Hheld; simpl.
  - split; [exact Hg|]. split; [done|]. intros Hin. inversion Hin.
  - rewrite run_bind, os_unlink_run.
    destruct (decide (x ∈ held h)) as [Hx|Hx].
    + split; [exact Hg|]. split; [done|]. reflexivity.
    + assert (g ≠ x) as Hne by (intros ->; exact (Hx Hheld)).
      specialize (IH {| csv := csv h ∖ {[x]}; held := held h |}).
      simpl in IH.
      destruct IH as (IH1 & IH2 & IH3); [set_solver|exact Hheld|].
      destruct (for_each Scraping.os_unlink names _) as [[r h1] j1].
      unfold final, outcome in *. simpl in *.
      split; [exact IH1|]. split; [set_solver|].
      intros [->|Hin]%elem_of_cons; [done|]. exact (IH3 Hin).
Qed.

Section more_construction.
Context {W : Type} `{Browser W}.

(** X13: a name of the csv directory that cannot be unlinked makes the
    construction end in [OSError] with nothing but unlink calls issued: the
    browser is not started, the name is still in the directory, and nothing
    was added to the directory. *)
Theorem init_stops_at_held_file (logs : list string) (type : string)
    (headless cookies : bool) (host : Host) (f : string) :
  f ∈ csv host → f ∈ held host →
  let r := Scraping.__init__ (W:=W) logs type headless cookies host in
  outcome r = inl OSError
  ∧ Forall is_unlink (journal r)
  ∧ f ∈ csv (final r)
  ∧ csv (final r) ⊆ csv host.
Proof.
  intros Hf Hheld r. subst r. unfold Scraping.__init__.
  rewrite run_bind. simpl. rewrite run_bind.
  pose proof (clear_run (elements (csv host)) host) as [Hj _].
  pose proof (clear_stops_at_held (elements (csv host)) host f Hf Hheld)
    as (H1 & H2 & H3).
  specialize (H3 (proj2 (elem_of_elements _ _) Hf)).
  destruct (for_each Scraping.os_unlink (elements (csv host)) host) as [[o h1] j1].
  unfold outcome, final, journal in *. simpl in *. subst o.
  repeat split; assumption.
Qed.

(** X14: when no name of the csv directory is held, the construction
    unlinks every name and leaves the directory empty whether or not the
    browser then starts; it starts Firefox, installs the ad blocker in the
    session and then adds it to the profile, each step only after the one
    before has succeeded, and only after the last of them is the object
    built, with the logs and the encounter type as given, no reference
    composition, and the session as the installation left it.  An
    exception of the start, of the installation or of the addition to the
    profile is the outcome: where the xpi file is missing no object is
    built although the browser runs, and the browser is not quit. *)
Theorem init_on_free_directory (logs : list string) (type : string)
    (headless cookies : bool) (host : Host) :
  (∀ f, f ∈ csv host → f ∉ held host) →
  Scraping.__init__ (W:=W) logs type headless cookies host
  = (match launch headless with
     | inl e => inl e
     | inr w =>
         match drv_install_addon Scraping.ublock w with
         | inl e => inl e
         | inr w' =>
             match profile_add_extension Scraping.ublock with
             | inl e => inl e
             | inr _ => inr (Scraping.Obj logs [] type w')
             end
         end
     end,
     {| csv := ∅; held := held host |},
     (Unlink <$> elements (csv host))
     ++ Firefox headless
        :: match launch headless with
           | inl _ => []
           | inr w =>
               InstallAddon Scraping.ublock
               :: match drv_install_addon Scraping.ublock w with
                  | inl _ => []
                  | inr _ => [AddExtension Scraping.ublock]
                  end
           end).
Proof.
  intros Hfree. unfold Scraping.__init__.
  rewrite run_bind. simpl. rewrite run_bind.
  pose proof (clear_run (elements (csv host)) host) as [_ Hc].
  pose proof (clear_keeps_held (elements (csv host)) host) as Hh.
  destruct (for_each Scraping.os_unlink (elements (csv host)) host) as [[[e|[]] h1] j1];
    unfold journal, outcome, final in *; simpl in *.
  - destruct Hc as (f & Hf & Hheld). apply elem_of_elements in Hf.
    destruct (Hfree f Hf Hheld).
  - destruct Hc as [-> Hcsv].
    rewrite list_to_set_elements_L, difference_diag_L in Hcsv.
    destruct h1 as [c1 k1]. simpl in *. subst c1 k1.
    rewrite run_bind. simpl.
    destruct (launch headless) as [e|w]; [reflexivity|].
    rewrite run_bind. simpl.
    destruct (drv_install_addon Scraping.ublock w) as [e|w']; [reflexivity|].
    rewrite run_bind. simpl.
    destruct (profile_add_extension Scraping.ublock) as [e|[]]; reflexivity.
Qed.

(** X15: an object of the earlier class that was built has an encounter
    type of 0, 1 or 2, the index of the string it was built with among
    "wipes", "kills" and "all"; it has no reference composition and no
    frames yet; building it started Firefox and nothing else, and left the
    csv directory alone. *)
Theorem earlier_init_built (logs : list string) (encounters_type : string)
    (headless : bool) (host : Host) (self : Earlier.obj W) :
  let r := Earlier.__init__ (W:=W) logs encounters_type headless host in
  outcome r = inr self →
  final r = host ∧ journal r = [Firefox headless]
  ∧ launch headless = inr (Earlier.driver self)
  ∧ Earlier.logs self = logs ∧ Earlier.comp self = []
  ∧ Earlier.dd_dfs self = [] ∧ Earlier.hd_dfs self = []
  ∧ ((encounters_type = "wipes" ∧ Earlier.enc_type self = 0)
     ∨ (encounters_type = "kills" ∧ Earlier.enc_type self = 1)
     ∨ (encounters_type = "all" ∧ Earlier.enc_type self = 2)).
Proof.
  intros r. subst r. unfold Earlier.__init__, bind, issue, ret, raise, outcome,
    final, journal.
  destruct (String.eqb_spec encounters_type "wipes") as [->|_];
    [|destruct (String.eqb_spec encounters_type "kills") as [->|_];
      [|destruct (String.eqb_spec encounters_type "all") as [->|_]]];
    simpl; try discriminate;
    destruct (launch headless) as [e|w]; simpl; try discriminate;
    intros [= <-]; simpl; repeat split; auto.
Qed.

(** X16: the earlier [check_comp] with no reference set, or with a
    reference that holds the observed tokens the same number of times,
    returns and calls nothing, and the reference it leaves is the sequence
    of observed tokens, the other attributes being as they were; with any
    other reference it calls [driver.quit] once, raises, the exception of
    [driver.quit] if that fails and [AttributeError] if not, and leaves
    the reference as it was. *)
Theorem earlier_check_comp_contract comp_html (self : Earlier.obj W) :
  let observed := Scraping.tokens comp_html in
  let r := Earlier.check_comp comp_html self in
  if decide (Earlier.comp self = [] ∨ Earlier.comp self ≡ₚ observed)
  then r = (inr (), Earlier.set_comp observed self, [])
       ∧ outcome r = inr () ∧ journal r = []
       ∧ Earlier.comp (final r) = observed
       ∧ Earlier.logs (final r) = Earlier.logs self
       ∧ Earlier.dd_dfs (final r) = Earlier.dd_dfs self
       ∧ Earlier.hd_dfs (final r) = Earlier.hd_dfs self
       ∧ Earlier.enc_type (final r) = Earlier.enc_type self
       ∧ Earlier.driver (final r) = Earlier.driver self
  else (∃ e, outcome r = inl e) ∧ journal r = [Quit]
       ∧ Earlier.comp (final r) = Earlier.comp self
       ∧ outcome r = match drv_quit (Earlier.driver self) with
                     | inl e => inl e
                     | inr _ => inl (AttributeError
                                       "Group comps in provided logs don't match.")
                     end
       ∧ Earlier.logs (final r) = Earlier.logs self
       ∧ Earlier.dd_dfs (final r) = Earlier.dd_dfs self
       ∧ Earlier.hd_dfs (final r) = Earlier.hd_dfs self
       ∧ Earlier.enc_type (final r) = Earlier.enc_type self.
Proof.
  intros observed r. subst r. unfold Earlier.check_comp.
  rewrite run_bind. simpl. fold (Scraping.tokens comp_html). fold observed.
  destruct (decide (Earlier.comp self = [] ∨ Earlier.comp self ≡ₚ observed))
    as [Hacc|Hrej].
  - assert (bool_decide (0 < length (Earlier.comp self))
            && bool_decide (Py.sorted (Earlier.comp self) ≠ Py.sorted observed) = false)
      as ->; [|repeat split; reflexivity].
    destruct Hacc as [->|Hp]; [reflexivity|].
    rewrite (bool_decide_false (_ ≠ _)); [apply andb_false_r|].
    intros Hn. apply Hn, sorted_eq_iff, Hp.
  - rewrite bool_decide_true, bool_decide_true.
    + unfold Earlier.quit, bind, issue, raise, outcome, journal, final. simpl.
      destruct (drv_quit (Earlier.driver self)); simpl;
        (split; [eauto|repeat split; reflexivity]).
    + intros Heq. apply Hrej. right. apply sorted_eq_iff, Heq.
    + destruct (Earlier.comp self); [|simpl; lia]. destruct Hrej. left. reflexivity.
Qed.

End more_construction.

Lemma init_stops_at_held_file_witness :
  let host := {| csv := {[ "damage.csv"; "open.csv" ]}; held := {[ "open.csv" ]} |} in
  let r := Scraping.__init__ (W:=string) ["a/1"] "all" true false host in
  outcome r = inl OSError
  ∧ Forall is_unlink (journal r)
  ∧ "open.csv" ∈ csv (final r)
  ∧ csv (final r) ⊆ csv host.
Proof.
  intros host.
  apply (init_stops_at_held_file (W:=string) ["a/1"] "all" true false host "open.csv").
  - unfold host. simpl. set_solver.
  - unfold host. simpl. set_solver.
Defined.

(** Two files lie in the directory.  Where the xpi file is there the
    object is built; where it is missing the constructor raises after the
    browser has started. *)
Lemma init_on_free_directory_witness :
  let host := {| csv := {[ "damage.csv"; "healing.csv" ]}; held := ∅ |} in
  Scraping.__init__ (W:=string) ["a/1"] "wipes" false true host
  = (inr (Scraping.Obj ["a/1"] [] "wipes" "about:blank"),
     {| csv := ∅; held := ∅ |},
     (Unlink <$> elements (csv host))
     ++ [Firefox false; InstallAddon Scraping.ublock; AddExtension Scraping.ublock])
  ∧ Scraping.__init__ (W:=unit) ["a/1"] "wipes" false true host
    = (inl OSError,
       {| csv := ∅; held := ∅ |},
       (Unlink <$> elements (csv host))
       ++ [Firefox false; InstallAddon Scraping.ublock; AddExtension Scraping.ublock]).
Proof.
  intros host. split.
  - exact (init_on_free_directory (W:=string) ["a/1"] "wipes" false true host
             (λ f _, not_elem_of_empty f)).
  - exact (init_on_free_directory (W:=unit) ["a/1"] "wipes" false true host
             (λ f _, not_elem_of_empty f)).
Defined.

Lemma earlier_init_built_witness :
  let self := Earlier.Obj ["a/1"] [] [] [] 1 "about:blank" in
  Earlier.enc_type self < 3
  ∧ outcome (Earlier.__init__ (W:=string) ["a/1"] "kills" true {| csv := ∅; held := ∅ |})
    = inr self.
Proof.
  intros self.
  assert (outcome (Earlier.__init__ (W:=string) ["a/1"] "kills" true
                     {| csv := ∅; held := ∅ |}) = inr self) as E by reflexivity.
  split; [|exact E].
  destruct (earlier_init_built (W:=string) ["a/1"] "kills" true
              {| csv := ∅; held := ∅ |} self E)
    as (_ & _ & _ & _ & _ & _ & _ & [[_ ->]|[[_ ->]|[_ ->]]]); lia.
Defined.

(** ** The batch of the earlier implementation *)

Lemma earlier_check_comp_run {W : Type} `{Browser W} comp_html (self : Earlier.obj W) :
  Earlier.check_comp comp_html self =
  if bool_decide (0 < length (Earlier.comp self))
     && bool_decide (Py.sorted (Earlier.comp self) ≠ Py.sorted (Scraping.tokens comp_html))
  then match drv_quit (Earlier.driver self) with
       | inr w => (inl (AttributeError "Group comps in provided logs don't match."),
                   Earlier.set_driver w self, [Quit])
       | inl e => (inl e, self, [Quit])
       end
  else (inr (), Earlier.set_comp (Scraping.tokens comp_html) self, []).
Proof.
  unfold Earlier.check_comp. rewrite run_bind. simpl.
  fold (Scraping.tokens comp_html). destruct (_ && _); [|reflexivity].
  unfold Earlier.quit, bind, issue, raise. simpl.
  destruct (drv_quit _); reflexivity.
Qed.

Section earlier_batch.
Import EarlierBatch.
#[local] Open Scope batch_scope.

Lemma quits2_app j1 j2 : quits2 (j1 ++ j2) = quits2 j1 + quits2 j2.
Proof. unfold quits2. rewrite filter_app, length_app. reflexivity. Qed.

Lemma quits2_one c : quits2 [c] = if decide (c = Did Quit) then 1 else 0.
Proof. unfold quits2. rewrite filter_cons. destruct (decide _); reflexivity. Qed.

Section rules.
Context {Σ : Type}.

Lemma run_bind2 {A B} (m : M2 Σ A) (f : A → M2 Σ B) σ :
  bind2 m f σ =
  match m σ with
  | (inr a, σ1, j1) => let '(r, σ2, j2) := f a σ1 in (r, σ2, j1 ++ j2)
  | (inl e, σ1, j1) => (inl e, σ1, j1)
  end.
Proof. reflexivity. Qed.

Lemma triple_bind {A B} P (m : M2 Σ A) (f : A → M2 Σ B) Q R E :
  triple P m Q E → (∀ a, triple (Q a) (f a) R E) → triple P (bind2 m f) R E.
Proof.
  intros Hm Hf σ j0 HP. rewrite run_bind2. specialize (Hm σ j0 HP).
  destruct (m σ) as [[[e|a] σ1] j1]; [exact Hm|].
  specialize (Hf a σ1 (j0 ++ j1) Hm).
  destruct (f a σ1) as [[[e|b] σ2] j2]; rewrite app_assoc; exact Hf.
Qed.

Lemma triple_ret {A} (P : Σ → list call2 → Prop) (a : A) Q E :
  (∀ σ j, P σ j → Q a σ j) → triple P (ret2 a) Q E.
Proof. intros HQ σ j0 HP. simpl. rewrite app_nil_r. apply HQ, HP. Qed.

Lemma triple_pre {A} (P P' : Σ → list call2 → Prop) (m : M2 Σ A) Q E :
  (∀ σ j, P σ j → P' σ j) → triple P' m Q E → triple P m Q E.
Proof. intros HPP Hm σ j0 HP. apply Hm, HPP, HP. Qed.

Lemma triple_post {A} (P : Σ → list call2 → Prop) (m : M2 Σ A) (Q Q' : A → _) E :
  (∀ a σ j, Q' a σ j → Q a σ j) → triple P m Q' E → triple P m Q E.
Proof.
  intros HQQ Hm σ j0 HP. specialize (Hm σ j0 HP).
  destruct (m σ) as [[[e|a] σ1] j1]; [exact Hm|]. apply HQQ, Hm.
Qed.

(** A fact that the state and the calls so far establish can be used for
    what follows. *)
Lemma triple_fact {A} (φ : Prop) (P : Σ → list call2 → Prop) (m : M2 Σ A) Q E :
  (φ → triple P m Q E) → triple (λ σ j, φ ∧ P σ j) m Q E.
Proof. intros Hm σ j0 [Hφ HP]. apply (Hm Hφ), HP. Qed.

End rules.

Section batch.
Context {W : Type} `{Browser W} `{Pointer W}.
Variable find_all_str : string → string → string.
Variable L : list string.

#[local] Abbreviation Turn d h := (between_turns (W:=W) L d h).
#[local] Abbreviation Raise := (on_raise (W:=W)).

Lemma drive_rule d h c op :
  c ≠ Did Quit → triple (Turn d h) (drive c op) (λ _, Turn d h) Raise.
Proof.
  intros Hc self j0 (HL & He & Hd & Hh & Hq). unfold drive.
  assert (quits2 (j0 ++ [c]) = 0) as Hq'.
  { rewrite quits2_app, quits2_one, Hq. destruct (decide _); [done|reflexivity]. }
  destruct (op (Earlier.driver self)).
  - split; [discriminate|]. rewrite Hq'. lia.
  - repeat split; assumption.
Qed.

Lemma ask_rule {A} d h c (q : W → exn + A) :
  c ≠ Did Quit → triple (Turn d h) (ask c q) (λ _, Turn d h) Raise.
Proof.
  intros Hc self j0 (HL & He & Hd & Hh & Hq). unfold ask.
  assert (quits2 (j0 ++ [c]) = 0) as Hq'.
  { rewrite quits2_app, quits2_one, Hq. destruct (decide _); [done|reflexivity]. }
  destruct (q (Earlier.driver self)).
  - split; [discriminate|]. rewrite Hq'. lia.
  - repeat split; assumption.
Qed.

Lemma sleep_rule d h ms : triple (Turn d h) (sleep ms) (λ _, Turn d h) Raise.
Proof.
  intros self j0 (HL & He & Hd & Hh & Hq). unfold sleep.
  repeat split; try assumption.
  rewrite quits2_app, quits2_one, Hq. destruct (decide _); [done|reflexivity].
Qed.

Lemma attr_rule {A} d h (f : Earlier.obj W → A) (φ : A → Prop) :
  (∀ self j, Turn d h self j → φ (f self)) →
  triple (Turn d h) (attr f) (λ a self j, φ a ∧ Turn d h self j) Raise.
Proof.
  intros Hφ self j0 HT. unfold attr. rewrite app_nil_r.
  split; [exact (Hφ _ _ HT)|exact HT].
Qed.

Lemma item_rule {A} d h (l : list A) i :
  i < length l → triple (Turn d h) (item l i) (λ _, Turn d h) Raise.
Proof.
  intros Hi self j0 HT. unfold item.
  destruct (lookup_lt_is_Some_2 l i Hi) as [x ->].
  rewrite app_nil_r. exact HT.
Qed.

Lemma check_comp_rule d h comp_html :
  triple (Turn d h) (check_comp comp_html) (λ _, Turn d h) Raise.
Proof.
  intros self j0 (HL & He & Hd & Hh & Hq). unfold check_comp, lift.
  rewrite earlier_check_comp_run. destruct (_ && _).
  - assert (quits2 (j0 ++ [Did Quit]) ≤ 1) as Hq'.
    { rewrite quits2_app, Hq. unfold quits2. simpl. lia. }
    destruct (drv_quit (Earlier.driver self)); split; try discriminate; exact Hq'.
  - simpl. rewrite app_nil_r. repeat split; assumption.
Qed.

Lemma get_damage_dealt_rule d h :
  triple (Turn d h) get_damage_dealt (λ _, Turn (S d) h) Raise.
Proof.
  unfold get_damage_dealt.
  eapply triple_bind; [apply ask_rule; discriminate|]. intros ?.
  intros self j0 (HL & He & Hd & Hh & Hq). rewrite app_nil_r.
  repeat split; try assumption. simpl. rewrite length_app. simpl. lia.
Qed.

Lemma get_healing_done_rule d h :
  triple (Turn d h) get_healing_done (λ _, Turn d (S h)) Raise.
Proof.
  unfold get_healing_done.
  eapply triple_bind; [apply ask_rule; discriminate|]. intros ?.
  intros self j0 (HL & He & Hd & Hh & Hq). rewrite app_nil_r.
  repeat split; try assumption. simpl. rewrite length_app. simpl. lia.
Qed.

Ltac step :=
  first
    [ eapply triple_bind;
        [ first [ apply drive_rule; discriminate
                | apply ask_rule; discriminate
                | apply sleep_rule
                | apply check_comp_rule ] | intros ? ] ].

Lemma to_summary_rule d h log_num :
  log_num < length L →
  triple (Turn d h) (to_summary log_num) (λ _, Turn d h) Raise.
Proof.
  intros Hlog. unfold to_summary.
  eapply triple_bind.
  { apply (attr_rule d h Earlier.logs (λ l, l = L)). intros self j HT. apply HT. }
  intros logs. apply triple_fact. intros ->.
  eapply triple_bind; [apply item_rule, Hlog|]. intros url.
  step. step.
  eapply triple_bind.
  { apply (attr_rule d h Earlier.enc_type (λ n, n < 3)). intros self j HT. apply HT. }
  intros enc. apply triple_fact. intros Henc.
  eapply triple_bind; [apply item_rule; exact Henc|]. intros xp.
  step. step. apply sleep_rule.
Qed.

Lemma get_comp_rule d h :
  triple (Turn d h) (get_comp find_all_str) (λ _, Turn d h) Raise.
Proof.
  unfold get_comp.
  eapply triple_bind; [apply ask_rule; discriminate|]. intros page.
  apply triple_ret. intros self j HT. exact HT.
Qed.

Lemma to_damage_dealt_rule d h :
  triple (Turn d h) to_damage_dealt (λ _, Turn d h) Raise.
Proof.
  unfold to_damage_dealt.
  eapply triple_bind; [apply ask_rule; discriminate|]. intros sum_url.
  apply drive_rule. discriminate.
Qed.

Lemma to_healing_done_rule d h :
  triple (Turn d h) to_healing_done (λ _, Turn d h) Raise.
Proof.
  unfold to_healing_done.
  eapply triple_bind; [apply ask_rule; discriminate|]. intros dd_url.
  apply drive_rule. discriminate.
Qed.

Lemma first_popup_rule d h :
  triple (Turn d h) first_popup (λ _, Turn d h) Raise.
Proof.
  unfold first_popup. step. step. step. apply drive_rule. discriminate.
Qed.

Lemma turn_rule d h log :
  log < length L →
  triple (Turn d h) (turn find_all_str log) (λ _, Turn (S d) (S h)) Raise.
Proof.
  intros Hlog. unfold turn.
  eapply triple_bind; [apply to_summary_rule, Hlog|]. intros ?.
  eapply triple_bind; [apply get_comp_rule|]. intros comp_html.
  step.
  eapply triple_bind; [apply to_damage_dealt_rule|]. intros ?.
  eapply triple_bind; [apply get_damage_dealt_rule|]. intros ?.
  eapply triple_bind; [apply to_healing_done_rule|]. intros ?.
  apply get_healing_done_rule.
Qed.

Lemma turns_rule d h logs :
  Forall (λ log, log < length L) logs →
  triple (Turn d h) (for_each2 (turn find_all_str) logs)
    (λ _, Turn (d + length logs) (h + length logs)) Raise.
Proof.
  intros Hlogs. revert d h. induction Hlogs as [|log logs Hlog _ IH]; intros d h.
  - apply triple_ret. intros self j HT. simpl. rewrite !Nat.add_0_r. exact HT.
  - simpl for_each2. eapply triple_bind; [apply turn_rule, Hlog|]. intros ?.
    eapply triple_post; [|apply IH].
    intros ? self j HT. simpl length.
    replace (d + S (length logs)) with (S d + length logs) by lia.
    replace (h + S (length logs)) with (S h + length logs) by lia. exact HT.
Qed.

Lemma parse_logs_rule d h :
  triple (Turn d h) (parse_logs find_all_str)
    (λ _ self j, Earlier.logs self = L
                 ∧ length (Earlier.dd_dfs self) = d + length L
                 ∧ length (Earlier.hd_dfs self) = h + length L
                 ∧ quits2 j = 1)
    Raise.
Proof.
  unfold parse_logs.
  eapply triple_bind; [apply first_popup_rule|]. intros ?.
  eapply triple_bind.
  { apply (attr_rule d h Earlier.logs (λ l, l = L)). intros self j HT. apply HT. }
  intros logs. apply triple_fact. intros ->.
  eapply triple_bind.
  { apply turns_rule. apply Forall_forall. intros i Hi.
    apply elem_of_seq in Hi. lia. }
  intros ?. rewrite length_seq.
  intros self j0 (HL & He & Hd & Hh & Hq). unfold lift, Earlier.quit, bind, issue.
  simpl.
  assert (quits2 (j0 ++ [Did Quit]) = 1) as Hq'.
  { rewrite quits2_app, Hq. reflexivity. }
  destruct (drv_quit (Earlier.driver self)); simpl.
  - split; [discriminate|]. rewrite Hq'. lia.
  - repeat split; assumption.
Qed.

End batch.

Section results.
Context {W : Type} `{Browser W} `{Pointer W}.
Variable find_all_str : string → string → string.

(** X17: a batch of the earlier implementation on an object whose
    encounter type is 0, 1 or 2, as that of every object built, never
    raises [IndexError] and quits the driver at most once; when it returns
    it has quit the driver exactly once, has left the list of logs as it
    was and has stored one damage frame and one healing frame more for
    every log of the list. *)
Theorem earlier_parse_logs_account (self : Earlier.obj W) :
  Earlier.enc_type self < 3 →
  let r := parse_logs find_all_str self in
  let n := length (Earlier.logs self) in
  match r.1.1 with
  | inr _ => quits2 (r.2) = 1
             ∧ Earlier.logs r.1.2 = Earlier.logs self
             ∧ length (Earlier.dd_dfs r.1.2) = length (Earlier.dd_dfs self) + n
             ∧ length (Earlier.hd_dfs r.1.2) = length (Earlier.hd_dfs self) + n
  | inl e => e ≠ IndexError ∧ quits2 (r.2) ≤ 1
  end.
Proof.
  intros Henc r n. subst r n.
  pose proof (parse_logs_rule find_all_str (Earlier.logs self)
                (length (Earlier.dd_dfs self)) (length (Earlier.hd_dfs self))
                self []) as T.
  destruct (parse_logs find_all_str self) as [[[e|[]] σ] j];
    simpl in *.
  - apply T. repeat split; auto.
  - destruct T as (? & ? & ? & ?); [repeat split; auto|]. repeat split; assumption.
Qed.

(** X18: [to_summary] with a number that is no index of the list of logs
    raises [IndexError] before it calls the driver: so it does, with its
    default argument, on an object without logs. *)
Theorem earlier_to_summary_out_of_range (self : Earlier.obj W) (log_num : nat) :
  length (Earlier.logs self) ≤ log_num →
  to_summary log_num self = (inl IndexError, self, []).
Proof.
  intros Hlen. unfold to_summary. rewrite run_bind2. unfold attr at 1.
  rewrite run_bind2. unfold item at 1.
  rewrite (lookup_ge_None_2 _ _ Hlen). reflexivity.
Qed.

(** X19: the batch begins with the front page of the site and its cookie
    button, whatever the list of logs: when the button is not found, the
    batch ends there with the driver's exception, having opened no log and
    not quit the driver. *)
Theorem earlier_parse_logs_without_popup (self : Earlier.obj W) w1 e :
  drv_get "https://www.fflogs.com/" (Earlier.driver self) = inr w1 →
  drv_find_element XPATH popup_xp (elapse 500 w1) = inl e →
  parse_logs find_all_str self
  = (inl (Raised e), Earlier.set_driver (elapse 500 w1) self,
     [Did (Get "https://www.fflogs.com/"); Did (Sleep 500);
      FindElement XPATH popup_xp]).
Proof.
  intros Hget Hfind. unfold parse_logs, first_popup.
  unfold bind2 at 1 2 3 4. unfold drive at 1. rewrite Hget.
  unfold sleep at 1. unfold drive at 1.
  cbn [Earlier.driver Earlier.set_driver]. rewrite Hfind. reflexivity.
Qed.

(** X20: with an empty list of logs and the cookie button pressed, the
    batch of the earlier implementation has opened one page, the front
    page of the site, before it quits the driver. *)
Theorem earlier_parse_logs_empty (self : Earlier.obj W) w1 w2 w3 :
  Earlier.logs self = [] →
  drv_get "https://www.fflogs.com/" (Earlier.driver self) = inr w1 →
  drv_find_element XPATH popup_xp (elapse 500 w1) = inr w2 →
  drv_send_keys XPATH popup_xp w2 = inr w3 →
  (parse_logs find_all_str self).2
  = [Did (Get "https://www.fflogs.com/"); Did (Sleep 500);
     FindElement XPATH popup_xp; Did (SendEnter XPATH popup_xp); Did Quit].
Proof.
  intros Hlogs Hget Hfind Hkeys. unfold parse_logs, first_popup.
  unfold bind2 at 1 2 3 4. unfold drive at 1. rewrite Hget.
  unfold sleep at 1. unfold drive at 1.
  cbn [Earlier.driver Earlier.set_driver]. rewrite Hfind.
  unfold drive at 1. cbn [Earlier.driver Earlier.set_driver]. rewrite Hkeys.
  unfold bind2, attr. cbn [Earlier.logs Earlier.set_driver]. rewrite Hlogs.
  unfold lift, Earlier.quit, bind, issue. simpl.
  destruct (drv_quit w3); reflexivity.
Qed.

End results.

(** Two logs with the same composition. *)
Lemma earlier_parse_logs_account_witness :
  let self := demo_earlier ["a/1"; "a/2"] [] "about:blank" in
  let r := parse_logs demo_find_all self in
  r.1.1 = inr ()
  ∧ quits2 (r.2) = 1
  ∧ Earlier.logs r.1.2 = Earlier.logs self
  ∧ length (Earlier.dd_dfs r.1.2) = 2
  ∧ length (Earlier.hd_dfs r.1.2) = 2.
Proof.
  intros self r.
  assert (r.1.1 = inr ()) as E by (vm_compute; reflexivity).
  split; [exact E|].
  assert (Earlier.enc_type self < 3) as Henc by (vm_compute; lia).
  pose proof (earlier_parse_logs_account demo_find_all self Henc) as T.
  cbv zeta in T. change (parse_logs demo_find_all self) with r in T.
  rewrite E in T. exact T.
Defined.

Lemma earlier_to_summary_out_of_range_witness :
  to_summary 0 (demo_earlier [] [] "about:blank")
  = (inl IndexError, demo_earlier [] [] "about:blank", []).
Proof.
  apply (earlier_to_summary_out_of_range (demo_earlier [] [] "about:blank") 0).
  simpl. lia.
Defined.

Lemma earlier_parse_logs_without_popup_witness :
  parse_logs (λ _ page, page) (Earlier.Obj ["a/1"] [] [] [] 2 ())
  = (inl (Raised WebDriverException), Earlier.Obj ["a/1"] [] [] [] 2 (),
     [Did (Get "https://www.fflogs.com/"); Did (Sleep 500);
      FindElement XPATH popup_xp]).
Proof.
  exact (earlier_parse_logs_without_popup (λ _ page, page)
           (Earlier.Obj ["a/1"] [] [] [] 2 ()) () WebDriverException
           eq_refl eq_refl).
Defined.

Lemma earlier_parse_logs_empty_witness :
  (parse_logs demo_find_all (demo_earlier [] [] "about:blank")).2
  = [Did (Get "https://www.fflogs.com/"); Did (Sleep 500);
     FindElement XPATH popup_xp; Did (SendEnter XPATH popup_xp); Did Quit].
Proof.
  exact (earlier_parse_logs_empty demo_find_all (demo_earlier [] [] "about:blank")
           "https://www.fflogs.com/" "https://www.fflogs.com/"
           "https://www.fflogs.com/" eq_refl eq_refl eq_refl eq_refl).
Defined.

End earlier_batch.
